(** * PCA with Numpy (Part_06.ipynb): the notebook's pipeline, stage by stage

    The notebook loads a table, transposes it into a matrix [X] whose columns
    are the samples, calls [LA.svd(X, full_matrices=False)], keeps a slice of
    the columns of [U] as the basis [P], and projects with [R = P.T @ X].

    The SVD routine itself is the linear-algebra library's and is not part of
    the notebook: it is a parameter of the development, and so is the
    plotting routine.  Everything the
    notebook writes itself (slicing, indexing, transposition, the matrix
    product, the order of the cells) is modelled below. *)

From Stdlib Require Import List ZArith Lia Bool PeanoNat.
Import ListNotations.

(** ** Outcome of a Python statement: a value, or a raised exception *)

Inductive exn : Type :=
| IndexError
| ValueError
| LinAlgError.

Inductive outcome (A : Type) : Type :=
| Ok (a : A)
| Raise (e : exn).

Arguments Ok {A} a.
Arguments Raise {A} e.

Definition bind {A B : Type} (c : outcome A) (k : A -> outcome B) : outcome B :=
  match c with
  | Ok a => k a
  | Raise e => Raise e
  end.

Notation "x <- c ;; k" := (bind c (fun x => k))
  (at level 61, c at next level, right associativity).
Notation "' p <- c ;; k" := (bind c (fun x => let p := x in k))
  (at level 61, p pattern, c at next level, right associativity).

(** ** The element type of an array: what [@] needs of it *)

Class Dtype (T : Type) : Type := {
  zero : T;
  add : T -> T -> T;
  mul : T -> T -> T
}.

#[export] Instance Z_dtype : Dtype Z :=
  {| zero := 0%Z; add := Z.add; mul := Z.mul |}.

(** The laws of exact arithmetic.  Floating-point numbers do not satisfy them;
    they are assumed only where a statement speaks of linearity. *)
Class ExactArith (T : Type) {D : Dtype T} : Prop := {
  add_comm : forall a b : T, add a b = add b a;
  add_assoc : forall a b c : T, add a (add b c) = add (add a b) c;
  add_zero_r : forall a : T, add a zero = a;
  mul_comm : forall a b : T, mul a b = mul b a;
  mul_assoc : forall a b c : T, mul a (mul b c) = mul (mul a b) c;
  mul_zero_r : forall a : T, mul a zero = zero;
  mul_add_distr_l : forall a b c : T, mul a (add b c) = add (mul a b) (mul a c)
}.

#[export] Instance Z_exact : ExactArith Z.
Proof.
  constructor; simpl; intros; lia.
Qed.

(** ** Python slices and integer indices *)

Module Slice.

(** One bound of [a:b] against a sequence of [length] items (step 1):
    a negative bound counts from the end, and the result is clamped to
    [0 .. length]. *)
Definition adjust (length i : Z) : Z :=
  if (i <? 0)%Z
  then (if (i + length <? 0)%Z then 0%Z else (i + length)%Z)
  else (if (length <=? i)%Z then length else i).

Definition from_option (o : option Z) (d : Z) : Z :=
  match o with
  | Some i => i
  | None => d
  end.

(** [start] of [a:b]; an omitted [a] is 0. *)
Definition start (length : Z) (a : option Z) : Z :=
  adjust length (from_option a 0%Z).

(** [stop] of [a:b]; an omitted [b] is [length]. *)
Definition stop (length : Z) (b : option Z) : Z :=
  adjust length (from_option b length).

(** Number of items selected by [a:b]. *)
Definition len (length : Z) (a b : option Z) : nat :=
  let lo := start length a in
  let hi := stop length b in
  if (lo <? hi)%Z then Z.to_nat (hi - lo) else 0.

(** An integer index [i] into a sequence of [length] items: out of
    [-length .. length-1] it raises [IndexError]. *)
Definition index (length i : Z) : outcome nat :=
  if ((i <? - length) || (length <=? i))%Z
  then Raise IndexError
  else Ok (Z.to_nat (if (i <? 0)%Z then (i + length)%Z else i)).

End Slice.

(** ** Two-dimensional arrays *)

Record ndarray (T : Type) : Type := mk_ndarray {
  nrows : nat;
  ncols : nat;
  rowsOf : list (list T)
}.

Arguments mk_ndarray {T} nrows ncols rowsOf.
Arguments nrows {T} n.
Arguments ncols {T} n.
Arguments rowsOf {T} n.

Section Numpy.

Context {T : Type} `{Dtype T}.

(** [M.shape] *)
Definition shape (M : ndarray T) : nat * nat := (nrows M, ncols M).

(** The data agree with the shape. *)
Definition wf (M : ndarray T) : Prop :=
  length (rowsOf M) = nrows M /\
  Forall (fun r => length r = ncols M) (rowsOf M).

Definition has_shape (M : ndarray T) (d m : nat) : Prop :=
  wf M /\ nrows M = d /\ ncols M = m.

(** [M[i, j]] for [i], [j] in range *)
Definition entry (M : ndarray T) (i j : nat) : T :=
  nth j (nth i (rowsOf M) []) zero.

Definition row (M : ndarray T) (i : nat) : list T :=
  nth i (rowsOf M) [].

Definition column (M : ndarray T) (j : nat) : list T :=
  map (fun r => nth j r zero) (rowsOf M).

(** [M[i, :]] *)
Definition index_row (M : ndarray T) (i : Z) : outcome (list T) :=
  i' <- Slice.index (Z.of_nat (nrows M)) i ;;
  Ok (row M i').

(** [M[:, j]] *)
Definition index_col (M : ndarray T) (j : Z) : outcome (list T) :=
  j' <- Slice.index (Z.of_nat (ncols M)) j ;;
  Ok (column M j').

(** [M[:, a:b]]: slicing raises nothing. *)
Definition slice_cols (M : ndarray T) (a b : option Z) : ndarray T :=
  let n := Z.of_nat (ncols M) in
  mk_ndarray (nrows M) (Slice.len n a b)
    (map (fun r => firstn (Slice.len n a b)
                     (skipn (Z.to_nat (Slice.start n a)) r))
         (rowsOf M)).

(** [M.T] *)
Definition transpose (M : ndarray T) : ndarray T :=
  mk_ndarray (ncols M) (nrows M) (map (column M) (seq 0 (ncols M))).

(** Sum of the products of two vectors, item by item.  The order in which a
    library accumulates the products is its own; no statement below depends
    on it. *)
Fixpoint dot (x y : list T) : T :=
  match x, y with
  | a :: x', b :: y' => add (mul a b) (dot x' y')
  | _, _ => zero
  end.

(** The rows of [A @ B], for shapes that agree. *)
Definition mm (A B : ndarray T) : list (list T) :=
  map (fun r => map (fun j => dot r (column B j)) (seq 0 (ncols B)))
      (rowsOf A).

(** [A @ B] on two-dimensional arrays *)
Definition matmul (A B : ndarray T) : outcome (ndarray T) :=
  if ncols A =? nrows B
  then Ok (mk_ndarray (nrows A) (ncols B) (mm A B))
  else Raise ValueError.

(** The items of [A @ x], for shapes that agree. *)
Definition mv (A : ndarray T) (x : list T) : list T :=
  map (fun r => dot r x) (rowsOf A).

(** [A @ x] on a two-dimensional array and a vector *)
Definition matvec (A : ndarray T) (x : list T) : outcome (list T) :=
  if ncols A =? length x
  then Ok (mv A x)
  else Raise ValueError.

Definition vadd (x y : list T) : list T :=
  map (fun p => add (fst p) (snd p)) (combine x y).

Definition vscale (c : T) (x : list T) : list T :=
  map (mul c) x.

End Numpy.

(** ** The notebook *)

Section Notebook.

Context {T : Type} `{Dtype T}.

(** [LA.svd(X, full_matrices=...)], the library's routine: it returns
    [(U, s, Vh)] or raises. *)
Variable LA_svd :
  ndarray T -> bool -> outcome (ndarray T * list T * ndarray T).

(** [plt.scatter(x, y, c=...)], the plotting library's routine: it draws the
    points, or raises, for instance on a [c] that does not fit them. *)
Variable plt_scatter : list T -> list T -> list T -> outcome unit.

(** Matrix ingestion, cells 14 and 44:
    [Xh = dataset.iloc[:, c0:c1].values], [y = dataset.iloc[:, cy].values],
    [X = Xh.T].  The table is given by its values, one row per sample. *)
Definition ingest (dataset : ndarray T) (c0 c1 cy : Z)
  : outcome (ndarray T * list T * ndarray T) :=
  let Xh := slice_cols dataset (Some c0) (Some c1) in
  y <- index_col dataset cy ;;
  let X := transpose Xh in
  Ok (Xh, y, X).

(** SVD engine, cells 23 and 46:
    [U, s, Vh = LA.svd(X, full_matrices=False)] *)
Definition svd_engine (X : ndarray T)
  : outcome (ndarray T * list T * ndarray T) :=
  LA_svd X false.

(** Component selector, cells 29, 35, 47 and 49: [P = U[:, a:b]] *)
Definition component_selector (U : ndarray T) (a b : option Z)
  : outcome (ndarray T) :=
  Ok (slice_cols U a b).

(** Projector, cells 31, 35, 47 and 49: [R = P.T @ X] *)
Definition projector (P X : ndarray T) : outcome (ndarray T) :=
  matmul (transpose P) X.

(** The plot, cells 33, 35, 47 and 49: [plt.scatter(R[0,:], R[1,:], c=y)].
    The two rows are taken first, in this order, then the routine is
    called. *)
Definition scatter (R : ndarray T) (y : list T) : outcome unit :=
  r0 <- index_row R 0%Z ;;
  r1 <- index_row R 1%Z ;;
  plt_scatter r0 r1 y.

(** The cells, with the constants the notebook writes. *)
Definition cell_14 (dataset : ndarray T) := ingest dataset 0%Z 13%Z 13%Z.
Definition cell_23 (X : ndarray T) := svd_engine X.
Definition cell_29 (U : ndarray T) := component_selector U None (Some 2%Z).
Definition cell_31 (P X : ndarray T) := projector P X.
Definition cell_33 (R : ndarray T) (y : list T) := scatter R y.

Definition cell_35 (U X : ndarray T) (y : list T)
  : outcome (ndarray T * ndarray T) :=
  P <- component_selector U (Some 7%Z) (Some 9%Z) ;;
  R <- projector P X ;;
  _ <- scatter R y ;;
  Ok (P, R).

Definition cell_44 (dataset : ndarray T) := ingest dataset 1%Z 5%Z 5%Z.
Definition cell_46 (X : ndarray T) := svd_engine X.

Definition cell_47 (U X : ndarray T) (y : list T)
  : outcome (ndarray T * ndarray T) :=
  P <- component_selector U None (Some 2%Z) ;;
  R <- projector P X ;;
  _ <- scatter R y ;;
  Ok (P, R).

Definition cell_49 (U X : ndarray T) (y : list T)
  : outcome (ndarray T * ndarray T) :=
  P <- component_selector U (Some 2%Z) (Some 4%Z) ;;
  R <- projector P X ;;
  _ <- scatter R y ;;
  Ok (P, R).

(** The flow from the table to the projected coordinates, for any choice of
    the constants: ingestion, decomposition, selection, projection. *)
Definition pca (dataset : ndarray T) (c0 c1 cy : Z) (a b : option Z)
  : outcome (ndarray T * list T) :=
  '(Xh, y, X) <- ingest dataset c0 c1 cy ;;
  '(U, s, Vh) <- svd_engine X ;;
  P <- component_selector U a b ;;
  R <- projector P X ;;
  Ok (R, y).

(** The wine run up to the first projection (cells 14, 23, 29, 31). *)
Definition wine_top2 (dataset : ndarray T) : outcome (ndarray T * list T) :=
  '(Xh, y, X) <- cell_14 dataset ;;
  '(U, s, Vh) <- cell_23 X ;;
  P <- cell_29 U ;;
  R <- cell_31 P X ;;
  Ok (R, y).

(** The wine run with the second projection (cells 14, 23, 35). *)
Definition wine_low (dataset : ndarray T) : outcome (ndarray T * list T) :=
  '(Xh, y, X) <- cell_14 dataset ;;
  '(U, s, Vh) <- cell_23 X ;;
  '(P, R) <- cell_35 U X y ;;
  Ok (R, y).

(** The iris runs (cells 44, 46, then 47 or 49). *)
Definition iris_top2 (dataset : ndarray T) : outcome (ndarray T * list T) :=
  '(Xh, y, X) <- cell_44 dataset ;;
  '(U, s, Vh) <- cell_46 X ;;
  '(P, R) <- cell_47 U X y ;;
  Ok (R, y).

Definition iris_low (dataset : ndarray T) : outcome (ndarray T * list T) :=
  '(Xh, y, X) <- cell_44 dataset ;;
  '(U, s, Vh) <- cell_46 X ;;
  '(P, R) <- cell_49 U X y ;;
  Ok (R, y).

End Notebook.

(** ** Linear maps on vectors of a given length *)

Section Linear.

Context {T : Type} `{Dtype T}.

Definition linear_on (d : nat) (f : list T -> list T) : Prop :=
  (forall x y : list T,
      length x = d -> length y = d -> f (vadd x y) = vadd (f x) (f y)) /\
  (forall (c : T) (x : list T),
      length x = d -> f (vscale c x) = vscale c (f x)).

End Linear.

(** ** Small arrays of integers, to run the definitions on *)

Module Sample.

(** A [U] with three columns. *)
Definition U23 : ndarray Z :=
  mk_ndarray 2 3 [[1; 2; 3]; [4; 5; 6]]%Z.

Definition X24 : ndarray Z :=
  mk_ndarray 2 4 [[1; 0; 2; 1]; [0; 1; 1; 3]]%Z.

Definition P21 : ndarray Z :=
  mk_ndarray 2 1 [[1]; [2]]%Z.

(** A table of three samples: two features and a label. *)
Definition table : ndarray Z :=
  mk_ndarray 3 3 [[1; 2; 0]; [3; 4; 1]; [5; 6; 0]]%Z.

(** A stand-in for the library's routine, good enough to run the flow:
    it hands back its argument as [U] and as [Vh]. *)
Definition echo_svd (X : ndarray Z) (full_matrices : bool)
  : outcome (ndarray Z * list Z * ndarray Z) :=
  Ok (X, [], X).

(** A stand-in for the plotting routine: it accepts the points when the two
    coordinate vectors are as long as each other and there is one colour
    value per point, and raises otherwise. *)
Definition sized_scatter (x y c : list Z) : outcome unit :=
  if (length x =? length y) && (length c =? length x)
  then Ok tt
  else Raise ValueError.

End Sample.

(** ** The cells that only display *)

Section Displays.

Context {T : Type} `{Dtype T}.

(** [v[i]] on a one-dimensional array *)
Definition index_vec (v : list T) (i : Z) : outcome T :=
  i' <- Slice.index (Z.of_nat (length v)) i ;;
  Ok (nth i' v zero).

(** Cell 16 and 45, first item: [X.shape] *)
Definition cell_16 (X : ndarray T) : nat * nat := shape X.

(** Cell 19: [X[:,0]], the first column of [X] *)
Definition cell_19 (X : ndarray T) : outcome (list T) := index_col X 0%Z.

(** Cell 20: [X[0,:]], the first row of [X] *)
Definition cell_20 (X : ndarray T) : outcome (list T) := index_row X 0%Z.

(** Cell 21: [X[:,:2]], the first two columns of [X] *)
Definition cell_21 (X : ndarray T) : ndarray T := slice_cols X None (Some 2%Z).

(** Cell 26: [X @ X.T @ U[:,0]].  Python reads it as [(X @ X.T) @ U[:,0]] and
    evaluates the left product before the index. *)
Definition cell_26 (X U : ndarray T) : outcome (list T) :=
  G <- matmul X (transpose X) ;;
  u <- index_col U 0%Z ;;
  matvec G u.

(** Cell 27: [s[0]*s[0]*U[:,0]], a scalar times a vector *)
Definition cell_27 (s : list T) (U : ndarray T) : outcome (list T) :=
  a <- index_vec s 0%Z ;;
  b <- index_vec s 0%Z ;;
  u <- index_col U 0%Z ;;
  Ok (vscale (mul a b) u).

(** A square array equal to its transpose, entry by entry. *)
Definition symmetric (G : ndarray T) : Prop :=
  nrows G = ncols G /\
  forall i j, i < nrows G -> j < nrows G -> entry G i j = entry G j i.

End Displays.

(** ** Label encoding (cell 43) *)

From Stdlib Require String.

Module Labels.

Import String.StringSyntax.
Delimit Scope string_scope with string.

(** A Python dict with string keys, as the list of its items; a key occurs
    once. *)
Definition dict : Type := list (String.string * Z).

(** [d[k] = v] *)
Definition dict_set (d : dict) (k : String.string) (v : Z) : dict :=
  (k, v) :: filter (fun kv => negb (String.eqb (fst kv) k)) d.

(** [d.get(k)] *)
Fixpoint dict_get (d : dict) (k : String.string) : option Z :=
  match d with
  | [] => None
  | (k', v) :: d' => if String.eqb k' k then Some v else dict_get d' k
  end.

(** [{'Iris-setosa' : 1, 'Iris-versicolor' : 2, 'Iris-virginica' : 3}] *)
Definition label_to_int : dict :=
  dict_set (dict_set (dict_set [] "Iris-setosa"%string 1%Z)
              "Iris-versicolor"%string 2%Z)
    "Iris-virginica"%string 3%Z.

(** [column.map(d)]: a value that is no key of [d] becomes NaN, here [None];
    nothing is raised. *)
Definition series_map (d : dict) (column : list String.string)
  : list (option Z) :=
  map (dict_get d) column.

(** [dataset['Species'] = dataset['Species'].map(label_to_int)] *)
Definition cell_43 (species : list String.string) : list (option Z) :=
  series_map label_to_int species.

End Labels.

Module Sample2.

(** A [U] and singular values to run cells 26 and 27 on. *)
Definition X23 : ndarray Z :=
  mk_ndarray 2 3 [[1; 2; 0]; [0; 1; 1]]%Z.

Definition U22 : ndarray Z :=
  mk_ndarray 2 2 [[1; 0]; [2; 1]]%Z.

(** A [U] with nine columns, enough for cell 35. *)
Definition U29 : ndarray Z :=
  mk_ndarray 2 9 [[1; 0; 0; 0; 0; 0; 0; 2; 1];
                  [0; 1; 0; 0; 0; 0; 0; 1; 3]]%Z.

(** A stand-in for the library's routine that raises. *)
Definition failing_svd (X : ndarray Z) (full_matrices : bool)
  : outcome (ndarray Z * list Z * ndarray Z) :=
  Raise LinAlgError.

End Sample2.

Module Sample3.

(** An iris-like table of three samples: an id, four features, a label. *)
Definition iris : ndarray Z :=
  mk_ndarray 3 6 [[1; 1; 2; 0; 0; 1];
                  [2; 3; 4; 0; 0; 2];
                  [3; 5; 6; 0; 0; 3]]%Z.

End Sample3.

(** ** Facts on slices and indices *)

Module SliceFacts.

Lemma adjust_range (n i : Z) :
  (0 <= n)%Z -> (0 <= Slice.adjust n i <= n)%Z.
Proof.
  intros Hn. unfold Slice.adjust.
  destruct (Z.ltb_spec i 0); [destruct (Z.ltb_spec (i + n) 0)|destruct (Z.leb_spec n i)]; lia.
Qed.

Lemma adjust_in_range (n i : Z) :
  (0 <= i <= n)%Z -> Slice.adjust n i = i.
Proof.
  intros Hi. unfold Slice.adjust.
  destruct (Z.ltb_spec i 0); [lia|].
  destruct (Z.leb_spec n i); lia.
Qed.

Lemma adjust_above (n i : Z) :
  (0 <= n <= i)%Z -> Slice.adjust n i = n.
Proof.
  intros Hi. unfold Slice.adjust.
  destruct (Z.ltb_spec i 0); [lia|].
  destruct (Z.leb_spec n i); lia.
Qed.

(** The selected items lie inside the sequence. *)
Lemma start_len_le (n : nat) (a b : option Z) :
  Z.to_nat (Slice.start (Z.of_nat n) a) + Slice.len (Z.of_nat n) a b <= n.
Proof.
  unfold Slice.len, Slice.start, Slice.stop.
  pose proof (adjust_range (Z.of_nat n) (Slice.from_option a 0%Z)) as Ha.
  pose proof (adjust_range (Z.of_nat n)
                (Slice.from_option b (Z.of_nat n))) as Hb.
  destruct (Z.ltb_spec (Slice.adjust (Z.of_nat n) (Slice.from_option a 0%Z))
              (Slice.adjust (Z.of_nat n) (Slice.from_option b (Z.of_nat n))));
    lia.
Qed.

(** With a start that is not negative and a stop beyond the end, the slice
    keeps what lies between the start and the end. *)
Lemma len_clamped (n : nat) (a b : Z) :
  (0 <= a)%Z -> (Z.of_nat n < b)%Z ->
  Slice.len (Z.of_nat n) (Some a) (Some b)
  = Z.to_nat (Z.max 0 (Z.min b (Z.of_nat n) - a)).
Proof.
  intros Ha Hb. unfold Slice.len, Slice.start, Slice.stop. simpl.
  rewrite (adjust_above (Z.of_nat n) b) by lia.
  destruct (Z.le_gt_cases a (Z.of_nat n)) as [Hle|Hgt].
  - rewrite adjust_in_range by lia.
    destruct (Z.ltb_spec a (Z.of_nat n)); lia.
  - rewrite adjust_above by lia.
    rewrite Z.ltb_irrefl. lia.
Qed.

Lemma index_ok (n i : Z) :
  (0 <= i < n)%Z -> Slice.index n i = Ok (Z.to_nat i).
Proof.
  intros Hi. unfold Slice.index.
  destruct (Z.ltb_spec i (- n)); [lia|].
  destruct (Z.leb_spec n i); [lia|]. simpl.
  destruct (Z.ltb_spec i 0); [lia|reflexivity].
Qed.

Lemma index_out (n i : Z) :
  (n <= i)%Z -> Slice.index n i = Raise IndexError.
Proof.
  intros Hi. unfold Slice.index.
  destruct (Z.leb_spec n i); [|lia].
  now rewrite orb_true_r.
Qed.

End SliceFacts.

(** ** Facts on lists *)

Section ListFacts.

Context {A : Type}.

Lemma map_nth_seq (l : list A) (d : A) :
  map (fun j => nth j l d) (seq 0 (length l)) = l.
Proof.
  induction l as [|x l IH]; simpl; [reflexivity|].
  f_equal. rewrite <- seq_shift, map_map. exact IH.
Qed.

Lemma length_window (l : list A) (s n : nat) :
  s + n <= length l -> length (firstn n (skipn s l)) = n.
Proof.
  intros Hle. rewrite length_firstn, length_skipn. lia.
Qed.

Lemma nth_window (l : list A) (s n j : nat) (d : A) :
  j < n -> nth j (firstn n (skipn s l)) d = nth (s + j) l d.
Proof.
  intros Hj. rewrite nth_firstn.
  destruct (Nat.ltb_spec j n); [|lia].
  apply nth_skipn.
Qed.

End ListFacts.

(** ** Facts on arrays *)

Section ArrayFacts.

Context {T : Type} `{Dtype T}.

Lemma length_column (M : ndarray T) (j : nat) :
  length (column M j) = length (rowsOf M).
Proof.
  unfold column. apply length_map.
Qed.

Lemma wf_row_length (M : ndarray T) (i : nat) :
  wf M -> i < nrows M -> length (row M i) = ncols M.
Proof.
  intros [Hlen Hall] Hi. unfold row.
  rewrite Forall_forall in Hall. apply Hall, nth_In. lia.
Qed.

(** *** Slicing the columns *)

Lemma has_shape_slice_cols (M : ndarray T) (d r : nat) (a b : option Z) :
  has_shape M d r ->
  has_shape (slice_cols M a b) d (Slice.len (Z.of_nat r) a b).
Proof.
  intros [[Hlen Hall] [Hd Hr]]. subst d r.
  unfold has_shape, wf, slice_cols; simpl.
  repeat split; auto.
  - rewrite length_map. exact Hlen.
  - apply Forall_map. revert Hall. apply Forall_impl.
    intros r Hr. apply length_window. rewrite Hr.
    apply SliceFacts.start_len_le.
Qed.

Lemma entry_slice_cols (M : ndarray T) (a b : option Z) (i j : nat) :
  i < length (rowsOf M) ->
  j < Slice.len (Z.of_nat (ncols M)) a b ->
  entry (slice_cols M a b) i j
  = entry M i (Z.to_nat (Slice.start (Z.of_nat (ncols M)) a) + j).
Proof.
  intros Hi Hj. unfold entry, slice_cols; simpl.
  rewrite (nth_indep _ [] (firstn
     (Slice.len (Z.of_nat (ncols M)) a b)
     (skipn (Z.to_nat (Slice.start (Z.of_nat (ncols M)) a)) [])))
    by (rewrite length_map; exact Hi).
  rewrite (map_nth (fun r => firstn _ (skipn _ r))).
  apply nth_window. exact Hj.
Qed.

(** *** Transposition *)

Lemma has_shape_transpose (M : ndarray T) (d m : nat) :
  has_shape M d m -> has_shape (transpose M) m d.
Proof.
  intros [[Hlen Hall] [Hd Hm]]. subst d m.
  unfold has_shape, wf, transpose; simpl.
  repeat split; auto.
  - rewrite length_map, length_seq. reflexivity.
  - apply Forall_map, Forall_forall. intros j _.
    rewrite length_column. exact Hlen.
Qed.

Lemma row_transpose (M : ndarray T) (j : nat) :
  j < ncols M -> row (transpose M) j = column M j.
Proof.
  intros Hj. unfold row, transpose; simpl.
  rewrite (nth_indep _ [] (column M 0))
    by (rewrite length_map, length_seq; exact Hj).
  rewrite (map_nth (column M)), seq_nth by exact Hj.
  reflexivity.
Qed.

Lemma column_transpose (M : ndarray T) (i : nat) :
  wf M -> i < nrows M -> column (transpose M) i = row M i.
Proof.
  intros Hwf Hi. unfold column at 1, transpose; simpl.
  rewrite map_map.
  rewrite <- (map_nth_seq (row M i) zero) at 1.
  rewrite (wf_row_length M i Hwf Hi).
  apply map_ext_in. intros j Hj. apply in_seq in Hj.
  unfold column, row.
  destruct Hwf as [Hlen _].
  rewrite (nth_indep _ zero (nth j [] zero))
    by (rewrite length_map; lia).
  rewrite (map_nth (fun r => nth j r zero)). reflexivity.
Qed.

(** *** The matrix product *)

Lemma matmul_ok (A B : ndarray T) :
  ncols A = nrows B ->
  matmul A B = Ok (mk_ndarray (nrows A) (ncols B) (mm A B)).
Proof.
  intros Heq. unfold matmul. rewrite Heq, Nat.eqb_refl. reflexivity.
Qed.

Lemma matmul_inv (A B R : ndarray T) :
  matmul A B = Ok R ->
  ncols A = nrows B /\ R = mk_ndarray (nrows A) (ncols B) (mm A B).
Proof.
  unfold matmul. destruct (Nat.eqb_spec (ncols A) (nrows B)) as [Heq|Hne].
  - intros Hok. injection Hok as <-. split; [exact Heq|reflexivity].
  - discriminate.
Qed.

Lemma has_shape_mm (A B : ndarray T) :
  length (rowsOf A) = nrows A ->
  has_shape (mk_ndarray (nrows A) (ncols B) (mm A B)) (nrows A) (ncols B).
Proof.
  intros Hlen. unfold has_shape, wf, mm; simpl.
  repeat split; auto.
  - rewrite length_map. exact Hlen.
  - apply Forall_map, Forall_forall. intros r _.
    rewrite length_map, length_seq. reflexivity.
Qed.

Lemma entry_mm (A B : ndarray T) (i j : nat) :
  i < length (rowsOf A) -> j < ncols B ->
  entry (mk_ndarray (nrows A) (ncols B) (mm A B)) i j
  = dot (row A i) (column B j).
Proof.
  intros Hi Hj. unfold entry, mm, row; simpl.
  rewrite (nth_indep _ []
             (map (fun j0 => dot [] (column B j0)) (seq 0 (ncols B))))
    by (rewrite length_map; exact Hi).
  rewrite (map_nth (fun r => map (fun j0 => dot r (column B j0))
                               (seq 0 (ncols B)))).
  rewrite (nth_indep _ zero (dot (nth i (rowsOf A) []) (column B 0)))
    by (rewrite length_map, length_seq; exact Hj).
  rewrite (map_nth (fun j0 => dot (nth i (rowsOf A) []) (column B j0))).
  rewrite seq_nth by exact Hj. reflexivity.
Qed.

(** Column [j] of [A @ B] is [A @ B[:, j]]. *)
Lemma column_mm (A B : ndarray T) (j : nat) :
  j < ncols B ->
  column (mk_ndarray (nrows A) (ncols B) (mm A B)) j = mv A (column B j).
Proof.
  intros Hj. unfold column at 1, mm, mv; simpl.
  rewrite map_map. apply map_ext. intros r.
  rewrite (nth_indep _ zero (dot r (column B 0)))
    by (rewrite length_map, length_seq; exact Hj).
  rewrite (map_nth (fun j0 => dot r (column B j0))).
  rewrite seq_nth by exact Hj. reflexivity.
Qed.

End ArrayFacts.

(** ** Linearity of [x |-> A @ x] in exact arithmetic *)

Section LinearFacts.

Context {T : Type} {D : Dtype T} {E : ExactArith T}.

Lemma add_zero_l (a : T) : add zero a = a.
Proof.
  rewrite add_comm. apply add_zero_r.
Qed.

Lemma add_shuffle (a b c d : T) :
  add (add a b) (add c d) = add (add a c) (add b d).
Proof.
  rewrite <- (add_assoc a b), (add_assoc b c d), (add_comm b c).
  rewrite <- (add_assoc c b d), (add_assoc a c). reflexivity.
Qed.

Lemma dot_nil_r (r : list T) : dot r [] = zero.
Proof.
  destruct r; reflexivity.
Qed.

Lemma dot_vadd (r x y : list T) :
  length x = length y -> dot r (vadd x y) = add (dot r x) (dot r y).
Proof.
  revert x y. induction r as [|a r IH]; intros x y Hlen.
  - simpl. now rewrite add_zero_r.
  - destruct x as [|b x], y as [|c y]; try discriminate.
    + simpl. now rewrite add_zero_r.
    + simpl in Hlen. injection Hlen as Hlen.
      change (vadd (b :: x) (c :: y)) with (add b c :: vadd x y).
      simpl. rewrite (IH x y Hlen), mul_add_distr_l.
      apply add_shuffle.
Qed.

Lemma dot_vscale (c : T) (r x : list T) :
  dot r (vscale c x) = mul c (dot r x).
Proof.
  revert x. induction r as [|a r IH]; intros x.
  - simpl. now rewrite mul_zero_r.
  - destruct x as [|b x]; simpl.
    + now rewrite mul_zero_r.
    + rewrite (IH x), mul_add_distr_l. f_equal.
      rewrite !mul_assoc, (mul_comm a c). reflexivity.
Qed.

Lemma combine_map_same {A : Type} (f g : A -> T) (l : list A) :
  combine (map f l) (map g l) = map (fun r => (f r, g r)) l.
Proof.
  induction l as [|r l IH]; simpl; [reflexivity|now rewrite IH].
Qed.

Lemma mv_linear (A : ndarray T) (d : nat) : linear_on d (mv A).
Proof.
  split.
  - intros x y Hx Hy. unfold mv, vadd at 2.
    rewrite combine_map_same, map_map. apply map_ext. intros r. simpl.
    apply dot_vadd. congruence.
  - intros c x _. unfold mv, vscale at 2.
    rewrite map_map. apply map_ext. intros r. apply dot_vscale.
Qed.

End LinearFacts.

(** ** The projector *)

Section ProjectorFacts.

Context {T : Type} `{Dtype T}.

Lemma projector_ok (P X : ndarray T) :
  nrows P = nrows X ->
  projector P X
  = Ok (mk_ndarray (ncols P) (ncols X) (mm (transpose P) X)).
Proof.
  intros Heq. unfold projector. now rewrite matmul_ok.
Qed.

Lemma projector_inv (P X R : ndarray T) :
  projector P X = Ok R ->
  nrows P = nrows X /\
  R = mk_ndarray (ncols P) (ncols X) (mm (transpose P) X).
Proof.
  intros Hok. apply matmul_inv in Hok. exact Hok.
Qed.

Lemma projector_entry (P X : ndarray T) (i j : nat) :
  i < ncols P -> j < ncols X ->
  entry (mk_ndarray (ncols P) (ncols X) (mm (transpose P) X)) i j
  = dot (column P i) (column X j).
Proof.
  intros Hi Hj.
  change (ncols P) with (nrows (transpose P)) at 1.
  rewrite entry_mm; [|simpl; rewrite length_map, length_seq; exact Hi|exact Hj].
  now rewrite row_transpose.
Qed.

(** The projector is defined whenever the row counts agree, and its result
    has one row per column of [P] and one column per column of [X]. *)
Lemma projector_has_shape (P X : ndarray T) (d k m : nat) :
  has_shape P d k ->
  has_shape X d m ->
  projector P X = Ok (mk_ndarray (ncols P) (ncols X) (mm (transpose P) X)) /\
  has_shape (mk_ndarray (ncols P) (ncols X) (mm (transpose P) X)) k m.
Proof.
  intros [[HPlen HPall] [HPd HPk]] [[HXlen HXall] [HXd HXm]].
  split; [apply projector_ok; congruence|].
  rewrite <- HPk, <- HXm.
  change (ncols P) with (nrows (transpose P)).
  apply has_shape_mm. simpl. now rewrite length_map, length_seq.
Qed.

(** The product of two vectors of one length, written out as the sum of the
    products of their items, first item outermost. *)
Lemma dot_as_sum (x y : list T) :
  length x = length y ->
  dot x y
  = fold_right (fun l acc => add (mul (nth l x zero) (nth l y zero)) acc)
      zero (seq 0 (length x)).
Proof.
  revert y. induction x as [|a x IH]; intros [|b y] Hlen;
    try discriminate; [reflexivity|].
  simpl in Hlen. injection Hlen as Hlen.
  simpl. f_equal. rewrite (IH y Hlen), <- seq_shift.
  generalize (seq 0 (length x)) as ls.
  induction ls as [|l ls IHls]; simpl; [reflexivity|now rewrite IHls].
Qed.

Lemma fold_right_ext_in {A B : Type} (f g : A -> B -> B) (z : B)
    (l : list A) :
  (forall a b, In a l -> f a b = g a b) ->
  fold_right f z l = fold_right g z l.
Proof.
  induction l as [|a l IH]; intros Hfg; simpl; [reflexivity|].
  rewrite IH by (intros a' b' Hin; apply Hfg; now right).
  apply Hfg. now left.
Qed.

Lemma nth_column (M : ndarray T) (i l : nat) :
  l < length (rowsOf M) -> nth l (column M i) zero = entry M l i.
Proof.
  intros Hl. unfold column, entry.
  rewrite (nth_indep _ zero (nth i [] zero)) by (rewrite length_map; exact Hl).
  now rewrite (map_nth (fun r => nth i r zero)).
Qed.

(** Entry (i, j) of [P.T @ X] as a sum over the d rows of [P] and [X]. *)
Lemma projector_entry_sum (P X : ndarray T) (d : nat) (i j : nat) :
  length (rowsOf P) = d -> length (rowsOf X) = d ->
  dot (column P i) (column X j)
  = fold_right (fun l acc => add (mul (entry P l i) (entry X l j)) acc)
      zero (seq 0 d).
Proof.
  intros HP HX.
  rewrite dot_as_sum by (rewrite !length_column; congruence).
  rewrite length_column, HP.
  apply fold_right_ext_in. intros l acc Hl. apply in_seq in Hl.
  rewrite !nth_column by lia. reflexivity.
Qed.

(** C5. For a basis [P] of shape d x k and data [X] of shape d x m, the
    projector returns [R = P.T @ X] of shape k x m; entry (i, j) of [R] is
    the sum over the d rows l of [P[l, i] * X[l, j]], the product of column
    i of [P] with column j of [X], so column j of [R] is [P.T @ X[:, j]],
    the image of sample j; and in exact arithmetic [x |-> P.T @ x] is a
    linear map on vectors of length d. *)
Theorem projector_shape_and_columns (P X : ndarray T) (d k m : nat) :
  has_shape P d k ->
  has_shape X d m ->
  exists R : ndarray T,
    projector P X = Ok R /\
    shape R = (k, m) /\
    has_shape R k m /\
    (forall i j, i < k -> j < m ->
                 entry R i j
                 = fold_right
                     (fun l acc => add (mul (entry P l i) (entry X l j)) acc)
                     zero (seq 0 d)) /\
    (forall i j, i < k -> j < m ->
                 entry R i j = dot (column P i) (column X j)) /\
    (forall j, j < m ->
               matvec (transpose P) (column X j) = Ok (column R j)) /\
    (ExactArith T -> linear_on d (mv (transpose P))).
Proof.
  intros HP HX.
  destruct (projector_has_shape P X d k m HP HX) as [Hok Hsh].
  destruct HP as [[HPlen HPall] [HPd HPk]].
  destruct HX as [[HXlen HXall] [HXd HXm]].
  exists (mk_ndarray (ncols P) (ncols X) (mm (transpose P) X)).
  split; [exact Hok|].
  split; [unfold shape; simpl; congruence|].
  split; [exact Hsh|].
  split; [|split; [|split]].
  - intros i j Hi Hj. rewrite projector_entry by lia.
    apply projector_entry_sum; lia.
  - intros i j Hi Hj. apply projector_entry; lia.
  - intros j Hj. unfold matvec. simpl.
    rewrite length_column, HXlen, HXd, <- HPd, Nat.eqb_refl.
    f_equal. symmetry.
    change (ncols P) with (nrows (transpose P)).
    apply column_mm. lia.
  - intros E. apply mv_linear.
Qed.

End ProjectorFacts.

Lemma has_shape_P21 : has_shape Sample.P21 2 1.
Proof.
  unfold has_shape, wf; simpl. repeat split; repeat constructor.
Qed.

Lemma has_shape_X24 : has_shape Sample.X24 2 4.
Proof.
  unfold has_shape, wf; simpl. repeat split; repeat constructor.
Qed.

Lemma has_shape_U23 : has_shape Sample.U23 2 3.
Proof.
  unfold has_shape, wf; simpl. repeat split; repeat constructor.
Qed.

Lemma has_shape_table : has_shape Sample.table 3 3.
Proof.
  unfold has_shape, wf; simpl. repeat split; repeat constructor.
Qed.

Lemma projector_shape_and_columns_witness :
  has_shape Sample.P21 2 1 /\
  has_shape Sample.X24 2 4 /\
  projector Sample.P21 Sample.X24 = Ok (mk_ndarray 1 4 [[1; 2; 4; 7]]%Z) /\
  exists R : ndarray Z,
    projector Sample.P21 Sample.X24 = Ok R /\
    shape R = (1, 4) /\
    has_shape R 1 4 /\
    (forall i j, i < 1 -> j < 4 ->
                 entry R i j
                 = fold_right
                     (fun l acc =>
                        add (mul (entry Sample.P21 l i)
                                 (entry Sample.X24 l j)) acc)
                     zero (seq 0 2)) /\
    (forall i j, i < 1 -> j < 4 ->
                 entry R i j
                 = dot (column Sample.P21 i) (column Sample.X24 j)) /\
    (forall j, j < 4 ->
               matvec (transpose Sample.P21) (column Sample.X24 j)
               = Ok (column R j)) /\
    (ExactArith Z -> linear_on 2 (mv (transpose Sample.P21))).
Proof.
  split; [exact has_shape_P21|].
  split; [exact has_shape_X24|].
  split; [reflexivity|].
  apply (projector_shape_and_columns Sample.P21 Sample.X24 2 1 4).
  - exact has_shape_P21.
  - exact has_shape_X24.
Defined.

(** On the sample, [P.T @ X] is computed as expected. *)
Example projector_sample :
  projector Sample.P21 Sample.X24
  = Ok (mk_ndarray 1 4 [[1; 2; 4; 7]]%Z).
Proof.
  reflexivity.
Qed.

(** ** The component selector *)

Section SelectorFacts.

Context {T : Type} `{Dtype T}.

(** C2, as the code has it. For [U] of shape d x r and any slice [a:b],
    also one that reaches outside [0, r), the component selector raises
    nothing: it returns the basis [P = U[:, a:b]], of shape d x n where n is
    the number of positions the slice keeps among the r columns (bounds
    beyond r stop at r), and column j of [P] is column [start + j] of
    [U], a column that exists. *)
Theorem selector_slice_never_raises
    (U : ndarray T) (d r : nat) (a b : option Z) :
  has_shape U d r ->
  exists P : ndarray T,
    component_selector U a b = Ok P /\
    has_shape P d (Slice.len (Z.of_nat r) a b) /\
    forall j, j < Slice.len (Z.of_nat r) a b ->
      Z.to_nat (Slice.start (Z.of_nat r) a) + j < r /\
      forall i, i < d ->
        entry P i j
        = entry U i (Z.to_nat (Slice.start (Z.of_nat r) a) + j).
Proof.
  intros HU. exists (slice_cols U a b).
  split; [reflexivity|].
  split; [now apply has_shape_slice_cols|].
  destruct HU as [[Hlen _] [Hd Hr]]. subst d r.
  intros j Hj. split.
  - pose proof (SliceFacts.start_len_le (ncols U) a b). lia.
  - intros i Hi. apply entry_slice_cols; [lia|exact Hj].
Qed.


(** An integer index, by contrast, is checked: [M[:, j]] with [j] at or
    beyond the number of columns raises. *)
Lemma index_col_out_of_range (M : ndarray T) (j : Z) :
  (Z.of_nat (ncols M) <= j)%Z -> index_col M j = Raise IndexError.
Proof.
  intros Hj. unfold index_col. now rewrite SliceFacts.index_out.
Qed.

Lemma index_row_out_of_range (M : ndarray T) (i : Z) :
  (Z.of_nat (nrows M) <= i)%Z -> index_row M i = Raise IndexError.
Proof.
  intros Hi. unfold index_row. now rewrite SliceFacts.index_out.
Qed.

(** The plot takes [R[0,:]] and [R[1,:]] before it calls the routine: with
    fewer than two rows it raises [IndexError] and the routine is not
    reached. *)
Lemma scatter_short
    (plt_scatter : list T -> list T -> list T -> outcome unit)
    (R : ndarray T) (y : list T) :
  nrows R < 2 -> scatter plt_scatter R y = Raise IndexError.
Proof.
  intros Hk. unfold scatter.
  destruct (Nat.eq_dec (nrows R) 0) as [H0|H0].
  - rewrite index_row_out_of_range by lia. reflexivity.
  - unfold index_row at 1.
    rewrite SliceFacts.index_ok by lia. simpl.
    rewrite index_row_out_of_range by lia. reflexivity.
Qed.

(** In cell 35 it is the plot's [R[0,:]] or [R[1,:]] that raises when [U]
    has fewer than nine columns, after [P] and [R] were computed. *)
Lemma cell_35_raises_at_the_plot
    (plt_scatter : list T -> list T -> list T -> outcome unit)
    (U X : ndarray T) (y : list T) (d r m : nat) :
  has_shape U d r ->
  has_shape X d m ->
  r < 9 ->
  exists P R : ndarray T,
    component_selector U (Some 7%Z) (Some 9%Z) = Ok P /\
    projector P X = Ok R /\
    scatter plt_scatter R y = Raise IndexError /\
    cell_35 plt_scatter U X y = Raise IndexError.
Proof.
  intros HU HX Hr.
  pose proof (has_shape_slice_cols U d r (Some 7%Z) (Some 9%Z) HU) as HP.
  rewrite SliceFacts.len_clamped in HP by lia.
  destruct (projector_has_shape _ _ _ _ _ HP HX) as [HR (_ & HRk & _)].
  set (R := mk_ndarray _ _ _) in HR, HRk.
  exists (slice_cols U (Some 7%Z) (Some 9%Z)), R.
  split; [reflexivity|]. split; [exact HR|].
  assert (Hplot : scatter plt_scatter R y = Raise IndexError)
    by (apply scatter_short; lia).
  split; [exact Hplot|].
  unfold cell_35, component_selector. simpl.
  rewrite HR. simpl. rewrite Hplot. reflexivity.
Qed.

End SelectorFacts.

Lemma selector_slice_never_raises_witness :
  has_shape Sample.U23 2 3 /\
  exists P : ndarray Z,
    component_selector Sample.U23 (Some 7%Z) (Some 9%Z) = Ok P /\
    has_shape P 2 (Slice.len (Z.of_nat 3) (Some 7%Z) (Some 9%Z)) /\
    forall j, j < Slice.len (Z.of_nat 3) (Some 7%Z) (Some 9%Z) ->
      Z.to_nat (Slice.start (Z.of_nat 3) (Some 7%Z)) + j < 3 /\
      forall i, i < 2 ->
        entry P i j
        = entry Sample.U23 i
            (Z.to_nat (Slice.start (Z.of_nat 3) (Some 7%Z)) + j).
Proof.
  split; [exact has_shape_U23|].
  apply (selector_slice_never_raises Sample.U23 2 3 (Some 7%Z) (Some 9%Z)).
  exact has_shape_U23.
Defined.

(** C2 as stated fails: columns 7:9 of a [U] with three columns are both
    outside [0, 3), and the selector returns an (empty) basis instead of
    raising. *)
Lemma selector_out_of_range_slice_is_accepted :
  has_shape Sample.U23 2 3 /\
  ~ (0 <= 7 < Z.of_nat 3)%Z /\
  component_selector Sample.U23 (Some 7%Z) (Some 9%Z)
  = Ok (mk_ndarray 2 0 [[]; []]) /\
  component_selector Sample.U23 (Some 7%Z) (Some 9%Z) <> Raise IndexError.
Proof.
  split; [exact has_shape_U23|].
  split; [simpl; lia|].
  split; [reflexivity|discriminate].
Qed.



(** Columns 1:9 of three are columns 1 and 2; columns 7:9 of three are none,
    and the projection then has no row. *)
Example selector_sample_1_9 :
  component_selector Sample.U23 (Some 1%Z) (Some 9%Z)
  = Ok (mk_ndarray 2 2 [[2; 3]; [5; 6]]%Z).
Proof.
  reflexivity.
Qed.

Example projector_sample_7_9 :
  (P <- component_selector Sample.U23 (Some 7%Z) (Some 9%Z) ;;
   projector P Sample.X24)
  = Ok (mk_ndarray 0 4 []).
Proof.
  reflexivity.
Qed.


(** A negative start is not a column index: it counts from the end, so
    [U[:, -1:20]] on three columns is the last column. *)
Example selector_sample_negative_start :
  component_selector Sample.U23 (Some (-1)%Z) (Some 20%Z)
  = Ok (mk_ndarray 2 1 [[3]; [6]]%Z).
Proof.
  reflexivity.
Qed.

(** Integer indexing of the same array is checked. *)
Example index_col_sample :
  index_col Sample.U23 2%Z = Ok [3; 6]%Z /\
  index_col Sample.U23 (-3)%Z = Ok [1; 4]%Z /\
  index_col Sample.U23 3%Z = Raise IndexError /\
  index_col Sample.U23 (-4)%Z = Raise IndexError.
Proof.
  repeat split.
Qed.

(** ** The flow as a whole *)

Section PipelineFacts.

Context {T : Type} `{Dtype T}.

Variable LA_svd :
  ndarray T -> bool -> outcome (ndarray T * list T * ndarray T).

(** The SVD engine adds nothing to the library call: no check of [X] before
    it, no change to what it returns or raises. *)
Remark svd_engine_is_the_library_call (X : ndarray T) :
  svd_engine LA_svd X = LA_svd X false.
Proof.
  reflexivity.
Qed.

(** The rows of [Xh] are the rows of the table, cut to the feature
    columns and otherwise untouched. *)
Lemma row_slice_cols (M : ndarray T) (a b : option Z) (j : nat) :
  j < length (rowsOf M) ->
  row (slice_cols M a b) j
  = firstn (Slice.len (Z.of_nat (ncols M)) a b)
      (skipn (Z.to_nat (Slice.start (Z.of_nat (ncols M)) a)) (row M j)).
Proof.
  intros Hj. unfold row, slice_cols; simpl.
  rewrite (nth_indep _ [] (firstn
     (Slice.len (Z.of_nat (ncols M)) a b)
     (skipn (Z.to_nat (Slice.start (Z.of_nat (ncols M)) a)) [])))
    by (rewrite length_map; exact Hj).
  apply (map_nth (fun r => firstn _ (skipn _ r))).
Qed.

Lemma pca_inv (dataset : ndarray T) (c0 c1 cy : Z) (a b : option Z)
    (R : ndarray T) (y : list T) :
  pca LA_svd dataset c0 c1 cy a b = Ok (R, y) ->
  exists (U : ndarray T) (s : list T) (Vh : ndarray T),
    index_col dataset cy = Ok y /\
    LA_svd (transpose (slice_cols dataset (Some c0) (Some c1))) false
    = Ok (U, s, Vh) /\
    projector (slice_cols U a b)
      (transpose (slice_cols dataset (Some c0) (Some c1))) = Ok R.
Proof.
  unfold pca, ingest, svd_engine, component_selector.
  destruct (index_col dataset cy) as [y'|e]; simpl; [|discriminate].
  destruct (LA_svd _ false) as [[[U s] Vh]|e]; simpl; [|discriminate].
  destruct (projector _ _) as [R'|e] eqn:HR; simpl; [|discriminate].
  intros Hok. injection Hok as <- <-.
  exists U, s, Vh. repeat split. exact HR.
Qed.

(** C9. Whenever the flow returns [R], the matrix handed to the SVD routine
    is the transposed slice of the table as ingested, the projector is run
    on that same matrix, and entry (i, j) of [R] is the product of the i-th
    selected column of [U] with the raw feature values of sample j: no mean
    is subtracted and nothing is rescaled on the way. *)
Theorem pca_uses_raw_data
    (dataset : ndarray T) (n w : nat) (c0 c1 cy : Z) (a b : option Z)
    (R : ndarray T) (y : list T) :
  has_shape dataset n w ->
  pca LA_svd dataset c0 c1 cy a b = Ok (R, y) ->
  exists (U : ndarray T) (s : list T) (Vh : ndarray T),
    svd_engine LA_svd (transpose (slice_cols dataset (Some c0) (Some c1)))
    = Ok (U, s, Vh) /\
    matmul (transpose (slice_cols U a b))
      (transpose (slice_cols dataset (Some c0) (Some c1))) = Ok R /\
    ncols R = n /\
    forall i j, i < nrows R -> j < n ->
      entry R i j
      = dot (column (slice_cols U a b) i)
          (firstn (Slice.len (Z.of_nat w) (Some c0) (Some c1))
             (skipn (Z.to_nat (Slice.start (Z.of_nat w) (Some c0)))
                (row dataset j))).
Proof.
  intros Hds Hrun.
  destruct (pca_inv _ _ _ _ _ _ _ _ Hrun) as (U & s & Vh & _ & Hsvd & HR).
  exists U, s, Vh.
  split; [exact Hsvd|]. split; [exact HR|].
  pose proof (has_shape_slice_cols dataset n w (Some c0) (Some c1) Hds)
    as HXh.
  apply projector_inv in HR. destruct HR as [_ ->].
  destruct Hds as [[Hlen _] [Hn Hw]].
  split; [simpl; exact Hn|].
  intros i j Hi Hj. simpl in Hi.
  rewrite projector_entry by (simpl; lia).
  f_equal.
  rewrite column_transpose;
    [|exact (proj1 HXh)|simpl; lia].
  rewrite row_slice_cols by lia.
  rewrite Hw. reflexivity.
Qed.

(** The notebook's runs are the flow at the constants it writes. *)
Lemma wine_top2_is_pca (dataset : ndarray T) :
  wine_top2 LA_svd dataset
  = pca LA_svd dataset 0%Z 13%Z 13%Z None (Some 2%Z).
Proof.
  reflexivity.
Qed.

Lemma plotted_run_inv
    (plt_scatter : list T -> list T -> list T -> outcome unit)
    (dataset : ndarray T) (c0 c1 cy : Z) (a b : option Z)
    (R : ndarray T) (y : list T) :
  ('(Xh, y, X) <- ingest dataset c0 c1 cy ;;
   '(U, s, Vh) <- svd_engine LA_svd X ;;
   '(P, R) <- (P <- component_selector U a b ;;
               R <- projector P X ;;
               _ <- scatter plt_scatter R y ;;
               Ok (P, R)) ;;
   Ok (R, y)) = Ok (R, y) ->
  pca LA_svd dataset c0 c1 cy a b = Ok (R, y).
Proof.
  unfold pca.
  destruct (ingest dataset c0 c1 cy) as [[[Xh y'] X]|e]; simpl;
    [|discriminate].
  destruct (svd_engine LA_svd X) as [[[U s] Vh]|e]; simpl; [|discriminate].
  destruct (projector _ X) as [R'|e]; simpl; [|discriminate].
  destruct (scatter plt_scatter R' y') as [pts|e]; simpl; [|discriminate].
  intros Hok. exact Hok.
Qed.

Lemma wine_low_is_pca
    (plt_scatter : list T -> list T -> list T -> outcome unit)
    (dataset R : ndarray T) (y : list T) :
  wine_low LA_svd plt_scatter dataset = Ok (R, y) ->
  pca LA_svd dataset 0%Z 13%Z 13%Z (Some 7%Z) (Some 9%Z) = Ok (R, y).
Proof.
  apply plotted_run_inv.
Qed.

Lemma iris_top2_is_pca
    (plt_scatter : list T -> list T -> list T -> outcome unit)
    (dataset R : ndarray T) (y : list T) :
  iris_top2 LA_svd plt_scatter dataset = Ok (R, y) ->
  pca LA_svd dataset 1%Z 5%Z 5%Z None (Some 2%Z) = Ok (R, y).
Proof.
  apply plotted_run_inv.
Qed.

Lemma iris_low_is_pca
    (plt_scatter : list T -> list T -> list T -> outcome unit)
    (dataset R : ndarray T) (y : list T) :
  iris_low LA_svd plt_scatter dataset = Ok (R, y) ->
  pca LA_svd dataset 1%Z 5%Z 5%Z (Some 2%Z) (Some 4%Z) = Ok (R, y).
Proof.
  apply plotted_run_inv.
Qed.

End PipelineFacts.

(** The flow on the sample table: features in columns 0:2, label in column 2,
    first column of [U] kept. *)
Example pca_sample :
  pca Sample.echo_svd Sample.table 0%Z 2%Z 2%Z None (Some 1%Z)
  = Ok (mk_ndarray 1 3 [[5; 11; 17]]%Z, [0; 1; 0]%Z).
Proof.
  reflexivity.
Qed.

Lemma pca_uses_raw_data_witness :
  has_shape Sample.table 3 3 /\
  pca Sample.echo_svd Sample.table 0%Z 2%Z 2%Z None (Some 1%Z)
  = Ok (mk_ndarray 1 3 [[5; 11; 17]]%Z, [0; 1; 0]%Z) /\
  exists (U : ndarray Z) (s : list Z) (Vh : ndarray Z),
    svd_engine Sample.echo_svd
      (transpose (slice_cols Sample.table (Some 0%Z) (Some 2%Z)))
    = Ok (U, s, Vh) /\
    matmul (transpose (slice_cols U None (Some 1%Z)))
      (transpose (slice_cols Sample.table (Some 0%Z) (Some 2%Z)))
    = Ok (mk_ndarray 1 3 [[5; 11; 17]]%Z) /\
    ncols (mk_ndarray 1 3 [[5; 11; 17]]%Z) = 3 /\
    forall i j, i < nrows (mk_ndarray 1 3 [[5; 11; 17]]%Z) -> j < 3 ->
      entry (mk_ndarray 1 3 [[5; 11; 17]]%Z) i j
      = dot (column (slice_cols U None (Some 1%Z)) i)
          (firstn (Slice.len (Z.of_nat 3) (Some 0%Z) (Some 2%Z))
             (skipn (Z.to_nat (Slice.start (Z.of_nat 3) (Some 0%Z)))
                (row Sample.table j))).
Proof.
  split; [exact has_shape_table|].
  split; [reflexivity|].
  apply (pca_uses_raw_data Sample.echo_svd Sample.table 3 3
           0%Z 2%Z 2%Z None (Some 1%Z)
           (mk_ndarray 1 3 [[5; 11; 17]]%Z) [0; 1; 0]%Z).
  - exact has_shape_table.
  - reflexivity.
Defined.

(** ** Transposition and indexing *)

Section TransposeFacts.

Context {T : Type} `{Dtype T}.

Lemma index_inv (n : nat) (i : Z) (k : nat) :
  Slice.index (Z.of_nat n) i = Ok k ->
  k < n /\ (- Z.of_nat n <= i < Z.of_nat n)%Z.
Proof.
  unfold Slice.index.
  destruct (Z.ltb_spec i (- Z.of_nat n)); simpl; [discriminate|].
  destruct (Z.leb_spec (Z.of_nat n) i); simpl; [discriminate|].
  intros Hok. injection Hok as <-.
  destruct (Z.ltb_spec i 0); lia.
Qed.

Lemma index_raise (n : nat) (i : Z) (e : exn) :
  Slice.index (Z.of_nat n) i = Raise e ->
  e = IndexError /\ ~ (- Z.of_nat n <= i < Z.of_nat n)%Z.
Proof.
  unfold Slice.index.
  destruct (Z.ltb_spec i (- Z.of_nat n)); simpl.
  - intros Hr. injection Hr as <-. split; [reflexivity|lia].
  - destruct (Z.leb_spec (Z.of_nat n) i); simpl; [|discriminate].
    intros Hr. injection Hr as <-. split; [reflexivity|lia].
Qed.

Lemma index_total (n : nat) (i : Z) :
  (- Z.of_nat n <= i < Z.of_nat n)%Z ->
  exists k, Slice.index (Z.of_nat n) i = Ok k /\ k < n.
Proof.
  intros Hi. destruct (Slice.index (Z.of_nat n) i) as [k|e] eqn:Hidx.
  - exists k. split; [reflexivity|]. now apply index_inv in Hidx.
  - apply index_raise in Hidx. tauto.
Qed.

Lemma transpose_transpose (M : ndarray T) :
  wf M -> transpose (transpose M) = M.
Proof.
  intros Hwf. destruct Hwf as [Hlen Hall].
  assert (Hwf : wf M) by (split; assumption).
  unfold transpose at 1. simpl.
  replace (map (column (transpose M)) (seq 0 (nrows M))) with (rowsOf M).
  - destruct M; reflexivity.
  - rewrite <- (map_nth_seq (rowsOf M) []) at 1. rewrite Hlen.
    apply map_ext_in. intros i Hi. apply in_seq in Hi.
    symmetry. apply column_transpose; [exact Hwf|lia].
Qed.

(** X1. Transposition turns a d x m array into an m x d array whose entry
    (j, i) is entry (i, j) of the original, and transposing twice gives the
    array back, [M.T.T = M], also when it has no row or no column. *)
Theorem transpose_involutive (M : ndarray T) (d m : nat) :
  has_shape M d m ->
  has_shape (transpose M) m d /\
  (forall i j, i < d -> j < m -> entry (transpose M) j i = entry M i j) /\
  transpose (transpose M) = M.
Proof.
  intros HM. split; [now apply has_shape_transpose|].
  split; [|apply transpose_transpose; exact (proj1 HM)].
  intros i j Hi Hj. destruct HM as [[Hlen _] [Hd Hm]].
  change (entry (transpose M) j i) with (nth i (row (transpose M) j) zero).
  rewrite row_transpose by lia. unfold column, entry.
  rewrite (nth_indep _ zero (nth j [] zero)) by (rewrite length_map; lia).
  now rewrite (map_nth (fun r => nth j r zero)).
Qed.

(** X2. In [X = Xh.T] the columns are the rows of [Xh] and the rows are its
    columns: [X[:, j]] is [Xh[j, :]] and [X[i, :]] is [Xh[:, i]], with the
    same result for every index, in range, negative or out of range. *)
Theorem transpose_swaps_indexing (M : ndarray T) (i : Z) :
  wf M ->
  index_col (transpose M) i = index_row M i /\
  index_row (transpose M) i = index_col M i.
Proof.
  intros Hwf. unfold index_col, index_row. simpl. split.
  - destruct (Slice.index (Z.of_nat (nrows M)) i) as [k|e] eqn:Hidx;
      simpl; [|reflexivity].
    apply index_inv in Hidx. f_equal.
    apply column_transpose; [exact Hwf|tauto].
  - destruct (Slice.index (Z.of_nat (ncols M)) i) as [k|e] eqn:Hidx;
      simpl; [|reflexivity].
    apply index_inv in Hidx. f_equal.
    apply row_transpose. tauto.
Qed.

End TransposeFacts.

Lemma wf_table : wf Sample.table.
Proof.
  exact (proj1 has_shape_table).
Qed.

Lemma transpose_involutive_witness :
  has_shape Sample.X24 2 4 /\
  has_shape (transpose Sample.X24) 4 2 /\
  (forall i j, i < 2 -> j < 4 ->
               entry (transpose Sample.X24) j i = entry Sample.X24 i j) /\
  transpose (transpose Sample.X24) = Sample.X24.
Proof.
  split; [exact has_shape_X24|].
  apply (transpose_involutive Sample.X24 2 4). exact has_shape_X24.
Defined.

(** An array with no row keeps its number of columns through [.T.T]. *)
Example transpose_sample_no_row :
  transpose (mk_ndarray 0 3 ([] : list (list Z)))
  = mk_ndarray 3 0 [[]; []; []] /\
  transpose (transpose (mk_ndarray 0 3 ([] : list (list Z))))
  = mk_ndarray 0 3 [].
Proof.
  split; reflexivity.
Qed.

Lemma transpose_swaps_indexing_witness :
  wf Sample.table /\
  index_col (transpose Sample.table) (-1)%Z = index_row Sample.table (-1)%Z /\
  index_row (transpose Sample.table) (-1)%Z = index_col Sample.table (-1)%Z.
Proof.
  split; [exact wf_table|].
  apply (transpose_swaps_indexing Sample.table (-1)%Z). exact wf_table.
Defined.

(** ** Ingestion *)

Section IngestFacts.

Context {T : Type} `{Dtype T}.

(** X3. On a table of n rows and w columns, ingestion raises [IndexError]
    when the label column [cy] is outside [-w, w) and nothing else; otherwise
    it returns [Xh] of shape n x k, [X] of shape k x n and n labels, where k
    is what the slice [c0:c1] keeps of the w columns; [X.T] is [Xh] again,
    and the labels are column [cy] of the table, untouched. *)
Theorem ingest_outcome (dataset : ndarray T) (n w : nat) (c0 c1 cy : Z) :
  has_shape dataset n w ->
  (~ (- Z.of_nat w <= cy < Z.of_nat w)%Z ->
   ingest dataset c0 c1 cy = Raise IndexError) /\
  ((- Z.of_nat w <= cy < Z.of_nat w)%Z ->
   exists (Xh : ndarray T) (y : list T) (X : ndarray T),
     ingest dataset c0 c1 cy = Ok (Xh, y, X) /\
     has_shape Xh n (Slice.len (Z.of_nat w) (Some c0) (Some c1)) /\
     has_shape X (Slice.len (Z.of_nat w) (Some c0) (Some c1)) n /\
     transpose X = Xh /\
     index_col dataset cy = Ok y /\
     length y = n).
Proof.
  intros Hds.
  pose proof (has_shape_slice_cols dataset n w (Some c0) (Some c1) Hds)
    as HXh.
  destruct Hds as [[Hlen Hall] [Hn Hw]].
  unfold ingest, index_col. rewrite Hw. split.
  - intros Hout.
    destruct (Slice.index (Z.of_nat w) cy) as [k|e] eqn:Hidx; simpl.
    + apply index_inv in Hidx. tauto.
    + apply index_raise in Hidx. destruct Hidx as [-> _]. reflexivity.
  - intros Hin. destruct (index_total w cy Hin) as (k & Hidx & Hk).
    rewrite Hidx. simpl.
    exists (slice_cols dataset (Some c0) (Some c1)), (column dataset k),
      (transpose (slice_cols dataset (Some c0) (Some c1))).
    split; [reflexivity|].
    split; [exact HXh|].
    split; [apply has_shape_transpose; exact HXh|].
    split; [apply transpose_transpose; exact (proj1 HXh)|].
    split; [reflexivity|].
    rewrite length_column. lia.
Qed.

End IngestFacts.

Lemma ingest_outcome_witness :
  has_shape Sample.table 3 3 /\
  (~ (- Z.of_nat 3 <= 2 < Z.of_nat 3)%Z ->
   ingest Sample.table 0%Z 2%Z 2%Z = Raise IndexError) /\
  ((- Z.of_nat 3 <= 2 < Z.of_nat 3)%Z ->
   exists (Xh : ndarray Z) (y : list Z) (X : ndarray Z),
     ingest Sample.table 0%Z 2%Z 2%Z = Ok (Xh, y, X) /\
     has_shape Xh 3 (Slice.len (Z.of_nat 3) (Some 0%Z) (Some 2%Z)) /\
     has_shape X (Slice.len (Z.of_nat 3) (Some 0%Z) (Some 2%Z)) 3 /\
     transpose X = Xh /\
     index_col Sample.table 2%Z = Ok y /\
     length y = 3).
Proof.
  split; [exact has_shape_table|].
  apply (ingest_outcome Sample.table 3 3 0%Z 2%Z 2%Z).
  exact has_shape_table.
Defined.

(** The wine table cut at column 13 when it has only the 13 features: the
    label index is out of range. *)
Example ingest_sample_no_label_column :
  ingest Sample.table 0%Z 2%Z 3%Z = Raise IndexError.
Proof.
  reflexivity.
Qed.

(** ** How the flow ends *)

Section ProjectorResult.

Context {T : Type} `{Dtype T}.

(** What the projector does with any [P], well-formed or not. *)
Lemma projector_result (P X : ndarray T) (m : nat) :
  ncols X = m ->
  (nrows P <> nrows X -> projector P X = Raise ValueError) /\
  (nrows P = nrows X ->
   exists R, projector P X = Ok R /\ has_shape R (ncols P) m).
Proof.
  intros Hm. unfold projector, matmul. simpl. split.
  - intros Hne. destruct (Nat.eqb_spec (nrows P) (nrows X)); tauto.
  - intros Heq. rewrite Heq, Nat.eqb_refl. eexists. split; [reflexivity|].
    rewrite <- Hm. change (ncols P) with (nrows (transpose P)).
    apply has_shape_mm. simpl. now rewrite length_map, length_seq.
Qed.

End ProjectorResult.

Section FlowFacts.

Context {T : Type} `{Dtype T}.

Variable LA_svd :
  ndarray T -> bool -> outcome (ndarray T * list T * ndarray T).

(** X4. The flow on a table of n rows and w columns ends in one of four
    ways, tried in this order: [IndexError] when the label column is outside
    [-w, w); the error of the SVD routine when it raises; [ValueError] when
    the [U] it returns has not one row per feature; otherwise a result
    [(R, y)] where [R] has one row per selected column of [U] and one column
    per sample, and [y] has one label per sample. *)
Theorem pca_outcome
    (dataset : ndarray T) (n w : nat) (c0 c1 cy : Z) (a b : option Z) :
  has_shape dataset n w ->
  (~ (- Z.of_nat w <= cy < Z.of_nat w)%Z ->
   pca LA_svd dataset c0 c1 cy a b = Raise IndexError) /\
  ((- Z.of_nat w <= cy < Z.of_nat w)%Z ->
   (forall e,
       LA_svd (transpose (slice_cols dataset (Some c0) (Some c1))) false
       = Raise e ->
       pca LA_svd dataset c0 c1 cy a b = Raise e) /\
   (forall U s Vh,
       LA_svd (transpose (slice_cols dataset (Some c0) (Some c1))) false
       = Ok (U, s, Vh) ->
       (nrows U <> Slice.len (Z.of_nat w) (Some c0) (Some c1) ->
        pca LA_svd dataset c0 c1 cy a b = Raise ValueError) /\
       (nrows U = Slice.len (Z.of_nat w) (Some c0) (Some c1) ->
        exists (R : ndarray T) (y : list T),
          pca LA_svd dataset c0 c1 cy a b = Ok (R, y) /\
          has_shape R (Slice.len (Z.of_nat (ncols U)) a b) n /\
          length y = n))).
Proof.
  intros Hds.
  pose proof (has_shape_transpose _ _ _
                (has_shape_slice_cols dataset n w (Some c0) (Some c1) Hds))
    as HX.
  destruct Hds as [[Hlen Hall] [Hn Hw]].
  unfold pca, ingest, index_col. rewrite Hw. split.
  - intros Hout.
    destruct (Slice.index (Z.of_nat w) cy) as [k|e] eqn:Hidx; simpl.
    + apply index_inv in Hidx. tauto.
    + apply index_raise in Hidx. destruct Hidx as [-> _]. reflexivity.
  - intros Hin. destruct (index_total w cy Hin) as (k & Hidx & Hk).
    rewrite Hidx. simpl. unfold svd_engine. split.
    + intros e He. rewrite He. reflexivity.
    + intros U s Vh HU. rewrite HU. simpl.
      unfold component_selector. simpl.
      destruct (projector_result (slice_cols U a b)
                  (transpose (slice_cols dataset (Some c0) (Some c1))) n)
        as [Hne Heq].
      { exact (proj2 (proj2 HX)). }
      destruct HX as (_ & HXrows & _). rewrite HXrows in Hne, Heq.
      split.
      * intros Hrows. rewrite (Hne Hrows). reflexivity.
      * intros Hrows. destruct (Heq Hrows) as (R & HR & HshR).
        rewrite HR. simpl. exists R, (column dataset k).
        split; [reflexivity|].
        split; [exact HshR|]. rewrite length_column. lia.
Qed.

End FlowFacts.

Lemma pca_outcome_witness :
  has_shape Sample.table 3 3 /\
  (~ (- Z.of_nat 3 <= 2 < Z.of_nat 3)%Z ->
   pca Sample.echo_svd Sample.table 0%Z 2%Z 2%Z None (Some 1%Z)
   = Raise IndexError) /\
  ((- Z.of_nat 3 <= 2 < Z.of_nat 3)%Z ->
   (forall e,
       Sample.echo_svd
         (transpose (slice_cols Sample.table (Some 0%Z) (Some 2%Z))) false
       = Raise e ->
       pca Sample.echo_svd Sample.table 0%Z 2%Z 2%Z None (Some 1%Z)
       = Raise e) /\
   (forall U s Vh,
       Sample.echo_svd
         (transpose (slice_cols Sample.table (Some 0%Z) (Some 2%Z))) false
       = Ok (U, s, Vh) ->
       (nrows U <> Slice.len (Z.of_nat 3) (Some 0%Z) (Some 2%Z) ->
        pca Sample.echo_svd Sample.table 0%Z 2%Z 2%Z None (Some 1%Z)
        = Raise ValueError) /\
       (nrows U = Slice.len (Z.of_nat 3) (Some 0%Z) (Some 2%Z) ->
        exists (R : ndarray Z) (y : list Z),
          pca Sample.echo_svd Sample.table 0%Z 2%Z 2%Z None (Some 1%Z)
          = Ok (R, y) /\
          has_shape R (Slice.len (Z.of_nat (ncols U)) None (Some 1%Z)) 3 /\
          length y = 3))).
Proof.
  split; [exact has_shape_table|].
  apply (pca_outcome Sample.echo_svd Sample.table 3 3
           0%Z 2%Z 2%Z None (Some 1%Z)).
  exact has_shape_table.
Defined.

(** A routine that raises ends the flow with its own error. *)
Example pca_sample_svd_fails :
  pca Sample2.failing_svd Sample.table 0%Z 2%Z 2%Z None (Some 1%Z)
  = Raise LinAlgError.
Proof.
  reflexivity.
Qed.

(** ** Selection in range, and selection against projection *)

Section SelectionFacts.

Context {T : Type} `{Dtype T}.

Lemma column_slice_cols (M : ndarray T) (a b : option Z) (j : nat) :
  j < Slice.len (Z.of_nat (ncols M)) a b ->
  column (slice_cols M a b) j
  = column M (Z.to_nat (Slice.start (Z.of_nat (ncols M)) a) + j).
Proof.
  intros Hj. unfold column, slice_cols; simpl.
  rewrite map_map. apply map_ext. intros r.
  apply nth_window. exact Hj.
Qed.

Lemma slice_in_range (r : nat) (a : option Z) (b : Z) :
  (0 <= Slice.from_option a 0 <= b)%Z -> (b <= Z.of_nat r)%Z ->
  Slice.start (Z.of_nat r) a = Slice.from_option a 0%Z /\
  Slice.len (Z.of_nat r) a (Some b)
  = Z.to_nat (b - Slice.from_option a 0%Z).
Proof.
  intros Ha Hb. unfold Slice.len, Slice.start, Slice.stop. simpl.
  rewrite !SliceFacts.adjust_in_range by lia.
  split; [reflexivity|].
  destruct (Z.ltb_spec (Slice.from_option a 0) b); lia.
Qed.

(** X5. A slice that stays inside the r columns of [U], 0 <= a <= b <= r
    with an omitted [a] read as 0, selects exactly b - a columns: column j of
    [P = U[:, a:b]] is column a + j of [U]. *)
Theorem selector_in_range
    (U : ndarray T) (d r : nat) (a : option Z) (b : Z) :
  has_shape U d r ->
  (0 <= Slice.from_option a 0 <= b)%Z ->
  (b <= Z.of_nat r)%Z ->
  exists P : ndarray T,
    component_selector U a (Some b) = Ok P /\
    has_shape P d (Z.to_nat (b - Slice.from_option a 0%Z)) /\
    forall j, j < Z.to_nat (b - Slice.from_option a 0%Z) ->
      column P j = column U (Z.to_nat (Slice.from_option a 0%Z) + j).
Proof.
  intros HU Ha Hb.
  destruct (slice_in_range r a b Ha Hb) as [Hstart Hlen].
  pose proof (has_shape_slice_cols U d r a (Some b) HU) as HP.
  rewrite Hlen in HP.
  exists (slice_cols U a (Some b)).
  split; [reflexivity|]. split; [exact HP|].
  intros j Hj. destruct HU as (_ & _ & Hr).
  rewrite column_slice_cols by (rewrite Hr, Hlen; exact Hj).
  now rewrite Hr, Hstart.
Qed.

(** X6. Selecting columns of [U] and then projecting gives rows of the
    projection on all of [U]: with [P = U[:, a:b]], [R = P.T @ X] and
    [F = U.T @ X], row i of [R] is row start + i of [F], entry by entry and
    whatever the arithmetic.  The two plots of a dataset show different rows
    of one and the same matrix. *)
Theorem select_then_project
    (U X : ndarray T) (d r m : nat) (a b : option Z) :
  has_shape U d r ->
  has_shape X d m ->
  exists P R F : ndarray T,
    component_selector U a b = Ok P /\
    projector P X = Ok R /\
    projector U X = Ok F /\
    forall i j, i < Slice.len (Z.of_nat r) a b -> j < m ->
      entry R i j
      = entry F (Z.to_nat (Slice.start (Z.of_nat r) a) + i) j.
Proof.
  intros HU HX.
  pose proof (has_shape_slice_cols U d r a b HU) as HP.
  destruct (projector_has_shape _ _ _ _ _ HP HX) as [HR _].
  destruct (projector_has_shape _ _ _ _ _ HU HX) as [HF _].
  eexists (slice_cols U a b), _, _.
  split; [reflexivity|]. split; [exact HR|]. split; [exact HF|].
  intros i j Hi Hj.
  destruct HU as (_ & _ & Hr). destruct HX as (_ & _ & Hm).
  pose proof (SliceFacts.start_len_le r a b) as Hle.
  rewrite !projector_entry; simpl; try lia.
  - f_equal. rewrite column_slice_cols by (rewrite Hr; exact Hi).
    now rewrite Hr.
  - rewrite Hr. exact Hi.
Qed.

End SelectionFacts.

Lemma has_shape_U29 : has_shape Sample2.U29 2 9.
Proof.
  unfold has_shape, wf; simpl. repeat split; repeat constructor.
Qed.

Lemma selector_in_range_witness :
  has_shape Sample2.U29 2 9 /\
  (0 <= Slice.from_option (Some 7%Z) 0 <= 9)%Z /\
  (9 <= Z.of_nat 9)%Z /\
  exists P : ndarray Z,
    component_selector Sample2.U29 (Some 7%Z) (Some 9%Z) = Ok P /\
    has_shape P 2 (Z.to_nat (9 - Slice.from_option (Some 7%Z) 0%Z)) /\
    forall j, j < Z.to_nat (9 - Slice.from_option (Some 7%Z) 0%Z) ->
      column P j
      = column Sample2.U29
          (Z.to_nat (Slice.from_option (Some 7%Z) 0%Z) + j).
Proof.
  split; [exact has_shape_U29|].
  split; [simpl; lia|].
  split; [simpl; lia|].
  apply (selector_in_range Sample2.U29 2 9 (Some 7%Z) 9%Z).
  - exact has_shape_U29.
  - simpl; lia.
  - simpl; lia.
Defined.

Lemma select_then_project_witness :
  has_shape Sample.U23 2 3 /\
  has_shape Sample.X24 2 4 /\
  exists P R F : ndarray Z,
    component_selector Sample.U23 (Some 1%Z) (Some 9%Z) = Ok P /\
    projector P Sample.X24 = Ok R /\
    projector Sample.U23 Sample.X24 = Ok F /\
    forall i j, i < Slice.len (Z.of_nat 3) (Some 1%Z) (Some 9%Z) -> j < 4 ->
      entry R i j
      = entry F (Z.to_nat (Slice.start (Z.of_nat 3) (Some 1%Z)) + i) j.
Proof.
  split; [exact has_shape_U23|].
  split; [exact has_shape_X24|].
  apply (select_then_project Sample.U23 Sample.X24 2 3 4
           (Some 1%Z) (Some 9%Z)).
  - exact has_shape_U23.
  - exact has_shape_X24.
Defined.

(** ** The cells that select, project and plot *)

Section PlotFacts.

Context {T : Type} `{Dtype T}.

Lemma row_mm (A B : ndarray T) (i : nat) :
  i < length (rowsOf A) ->
  row (mk_ndarray (nrows A) (ncols B) (mm A B)) i
  = map (fun j => dot (row A i) (column B j)) (seq 0 (ncols B)).
Proof.
  intros Hi. unfold row, mm; simpl.
  rewrite (nth_indep _ []
             (map (fun j => dot [] (column B j)) (seq 0 (ncols B))))
    by (rewrite length_map; exact Hi).
  apply (map_nth (fun r => map (fun j => dot r (column B j))
                              (seq 0 (ncols B)))).
Qed.

(** Row i of [P.T @ X]: the products of column i of [P] with the samples. *)
Lemma projector_row (P X : ndarray T) (i : nat) :
  i < ncols P ->
  row (mk_ndarray (ncols P) (ncols X) (mm (transpose P) X)) i
  = map (fun j => dot (column P i) (column X j)) (seq 0 (ncols X)).
Proof.
  intros Hi. change (ncols P) with (nrows (transpose P)) at 1.
  rewrite row_mm by (simpl; rewrite length_map, length_seq; exact Hi).
  now rewrite row_transpose.
Qed.

Lemma scatter_full
    (plt_scatter : list T -> list T -> list T -> outcome unit)
    (R : ndarray T) (y : list T) :
  2 <= nrows R ->
  scatter plt_scatter R y = plt_scatter (row R 0) (row R 1) y.
Proof.
  intros Hk. unfold scatter, index_row.
  rewrite !SliceFacts.index_ok by lia. reflexivity.
Qed.

(** The common shape of cells 35, 47 and 49, for any slice [a:b]. *)
Lemma select_project_plot
    (plt_scatter : list T -> list T -> list T -> outcome unit)
    (U X : ndarray T) (y : list T) (d r m : nat) (a b : option Z) :
  has_shape U d r ->
  has_shape X d m ->
  (Slice.len (Z.of_nat r) a b < 2 ->
   (P <- component_selector U a b ;;
    R <- projector P X ;;
    _ <- scatter plt_scatter R y ;;
    Ok (P, R)) = Raise IndexError) /\
  (2 <= Slice.len (Z.of_nat r) a b ->
   exists P R : ndarray T,
     component_selector U a b = Ok P /\
     projector P X = Ok R /\
     has_shape P d (Slice.len (Z.of_nat r) a b) /\
     has_shape R (Slice.len (Z.of_nat r) a b) m /\
     (P <- component_selector U a b ;;
      R <- projector P X ;;
      _ <- scatter plt_scatter R y ;;
      Ok (P, R))
     = (_ <- plt_scatter
               (map (fun j =>
                       dot (column U (Z.to_nat (Slice.start (Z.of_nat r) a)))
                           (column X j)) (seq 0 m))
               (map (fun j =>
                       dot (column U
                              (Z.to_nat (Slice.start (Z.of_nat r) a) + 1))
                           (column X j)) (seq 0 m))
               y ;;
        Ok (P, R))).
Proof.
  intros HU HX.
  pose proof (has_shape_slice_cols U d r a b HU) as HP.
  destruct (projector_has_shape _ _ _ _ _ HP HX) as [HR HshR].
  unfold component_selector. simpl. rewrite HR. simpl.
  set (R := mk_ndarray _ _ _) in *.
  assert (Hk : nrows R = Slice.len (Z.of_nat r) a b)
    by exact (proj1 (proj2 HshR)).
  split.
  - intros Hlt. rewrite scatter_short by lia. reflexivity.
  - intros Hge. exists (slice_cols U a b), R.
    split; [reflexivity|]. split; [exact HR|].
    split; [exact HP|]. split; [exact HshR|].
    rewrite scatter_full by lia.
    destruct HU as (_ & _ & Hr). destruct HX as (_ & _ & Hm).
    assert (Hcols : ncols (slice_cols U a b) = Slice.len (Z.of_nat r) a b)
      by (simpl; now rewrite Hr).
    unfold R. rewrite !projector_row by lia.
    rewrite !column_slice_cols by (rewrite Hr; lia).
    rewrite Hr, Hm, Nat.add_0_r. reflexivity.
Qed.

(** X7. Cell 35 ([P = U[:,7:9]], [R = P.T @ X], the plot) on [U] of shape d x r and [X] of shape
    d x m.  With r < 9 it raises [IndexError] at [R[0,:]] or [R[1,:]] and
    the plotting routine is not reached.  With r >= 9 it computes [P] of
    shape d x 2 and [R] of shape 2 x m and calls the plotting routine on
    the products of each sample with columns 7 and 8 of [U], with [y] as
    colours: the cell returns if the routine does and raises what it
    raises. *)
Theorem cell_35_outcome
    (plt_scatter : list T -> list T -> list T -> outcome unit)
    (U X : ndarray T) (y : list T) (d r m : nat) :
  has_shape U d r ->
  has_shape X d m ->
  (r < 9 -> cell_35 plt_scatter U X y = Raise IndexError) /\
  (9 <= r ->
   exists P R : ndarray T,
     component_selector U (Some 7%Z) (Some 9%Z) = Ok P /\
     projector P X = Ok R /\
     has_shape P d 2 /\
     has_shape R 2 m /\
     cell_35 plt_scatter U X y
     = (_ <- plt_scatter
               (map (fun j => dot (column U 7) (column X j)) (seq 0 m))
               (map (fun j => dot (column U 8) (column X j)) (seq 0 m))
               y ;;
        Ok (P, R))).
Proof.
  intros HU HX.
  destruct (select_project_plot plt_scatter U X y d r m
              (Some 7%Z) (Some 9%Z) HU HX) as [Hshort Hfull].
  assert (Hlen : r < 9 -> Slice.len (Z.of_nat r) (Some 7%Z) (Some 9%Z) < 2).
  { intros Hr. change (Slice.len (Z.of_nat r) (Some 7%Z) (Some 9%Z))
      with (Slice.len (Z.of_nat r) (Some 7%Z) (Some 9%Z)).
    rewrite SliceFacts.len_clamped by lia. lia. }
  split.
  - intros Hr. apply Hshort. apply Hlen. exact Hr.
  - intros Hr.
    destruct (slice_in_range r (Some 7%Z) 9%Z) as [Hstart Hlen'];
      [simpl; lia|lia|].
    rewrite Hstart, Hlen' in Hfull. simpl in Hfull.
    apply Hfull. lia.
Qed.

(** X8. Cell 47 ([P = U[:,:2]], [R = P.T @ X], the plot) on [U] of shape d x r and [X] of shape
    d x m.  With r < 2 it raises [IndexError] at [R[0,:]] or [R[1,:]] and
    the plotting routine is not reached.  With r >= 2 it computes [P] of
    shape d x 2 and [R] of shape 2 x m and calls the plotting routine on
    the products of each sample with columns 0 and 1 of [U], with [y] as
    colours: the cell returns if the routine does and raises what it
    raises. *)
Theorem cell_47_outcome
    (plt_scatter : list T -> list T -> list T -> outcome unit)
    (U X : ndarray T) (y : list T) (d r m : nat) :
  has_shape U d r ->
  has_shape X d m ->
  (r < 2 -> cell_47 plt_scatter U X y = Raise IndexError) /\
  (2 <= r ->
   exists P R : ndarray T,
     component_selector U None (Some 2%Z) = Ok P /\
     projector P X = Ok R /\
     has_shape P d 2 /\
     has_shape R 2 m /\
     cell_47 plt_scatter U X y
     = (_ <- plt_scatter
               (map (fun j => dot (column U 0) (column X j)) (seq 0 m))
               (map (fun j => dot (column U 1) (column X j)) (seq 0 m))
               y ;;
        Ok (P, R))).
Proof.
  intros HU HX.
  destruct (select_project_plot plt_scatter U X y d r m
              None (Some 2%Z) HU HX) as [Hshort Hfull].
  assert (Hlen : r < 2 -> Slice.len (Z.of_nat r) None (Some 2%Z) < 2).
  { intros Hr. change (Slice.len (Z.of_nat r) None (Some 2%Z))
      with (Slice.len (Z.of_nat r) (Some 0%Z) (Some 2%Z)).
    rewrite SliceFacts.len_clamped by lia. lia. }
  split.
  - intros Hr. apply Hshort. apply Hlen. exact Hr.
  - intros Hr.
    destruct (slice_in_range r None 2%Z) as [Hstart Hlen'];
      [simpl; lia|lia|].
    rewrite Hstart, Hlen' in Hfull. simpl in Hfull.
    apply Hfull. lia.
Qed.

(** X9. Cell 49 ([P = U[:,2:4]], [R = P.T @ X], the plot) on [U] of shape d x r and [X] of shape
    d x m.  With r < 4 it raises [IndexError] at [R[0,:]] or [R[1,:]] and
    the plotting routine is not reached.  With r >= 4 it computes [P] of
    shape d x 2 and [R] of shape 2 x m and calls the plotting routine on
    the products of each sample with columns 2 and 3 of [U], with [y] as
    colours: the cell returns if the routine does and raises what it
    raises. *)
Theorem cell_49_outcome
    (plt_scatter : list T -> list T -> list T -> outcome unit)
    (U X : ndarray T) (y : list T) (d r m : nat) :
  has_shape U d r ->
  has_shape X d m ->
  (r < 4 -> cell_49 plt_scatter U X y = Raise IndexError) /\
  (4 <= r ->
   exists P R : ndarray T,
     component_selector U (Some 2%Z) (Some 4%Z) = Ok P /\
     projector P X = Ok R /\
     has_shape P d 2 /\
     has_shape R 2 m /\
     cell_49 plt_scatter U X y
     = (_ <- plt_scatter
               (map (fun j => dot (column U 2) (column X j)) (seq 0 m))
               (map (fun j => dot (column U 3) (column X j)) (seq 0 m))
               y ;;
        Ok (P, R))).
Proof.
  intros HU HX.
  destruct (select_project_plot plt_scatter U X y d r m
              (Some 2%Z) (Some 4%Z) HU HX) as [Hshort Hfull].
  assert (Hlen : r < 4 -> Slice.len (Z.of_nat r) (Some 2%Z) (Some 4%Z) < 2).
  { intros Hr. change (Slice.len (Z.of_nat r) (Some 2%Z) (Some 4%Z))
      with (Slice.len (Z.of_nat r) (Some 2%Z) (Some 4%Z)).
    rewrite SliceFacts.len_clamped by lia. lia. }
  split.
  - intros Hr. apply Hshort. apply Hlen. exact Hr.
  - intros Hr.
    destruct (slice_in_range r (Some 2%Z) 4%Z) as [Hstart Hlen'];
      [simpl; lia|lia|].
    rewrite Hstart, Hlen' in Hfull. simpl in Hfull.
    apply Hfull. lia.
Qed.

End PlotFacts.

Lemma cell_35_outcome_witness :
  has_shape Sample2.U29 2 9 /\
  has_shape Sample.X24 2 4 /\
  (9 < 9 ->
   cell_35 Sample.sized_scatter Sample2.U29 Sample.X24 [1; 2; 1; 2]%Z
   = Raise IndexError) /\
  (9 <= 9 ->
   exists P R : ndarray Z,
     component_selector Sample2.U29 (Some 7%Z) (Some 9%Z) = Ok P /\
     projector P Sample.X24 = Ok R /\
     has_shape P 2 2 /\
     has_shape R 2 4 /\
     cell_35 Sample.sized_scatter Sample2.U29 Sample.X24 [1; 2; 1; 2]%Z
     = (_ <- Sample.sized_scatter
               (map (fun j => dot (column Sample2.U29 7) (column Sample.X24 j))
                    (seq 0 4))
               (map (fun j => dot (column Sample2.U29 8) (column Sample.X24 j))
                    (seq 0 4))
               [1; 2; 1; 2]%Z ;;
        Ok (P, R))).
Proof.
  split; [exact has_shape_U29|].
  split; [exact has_shape_X24|].
  apply (cell_35_outcome Sample.sized_scatter Sample2.U29 Sample.X24
           [1; 2; 1; 2]%Z 2 9 4).
  - exact has_shape_U29.
  - exact has_shape_X24.
Defined.

Lemma cell_47_outcome_witness :
  has_shape Sample.U23 2 3 /\
  has_shape Sample.X24 2 4 /\
  (3 < 2 ->
   cell_47 Sample.sized_scatter Sample.U23 Sample.X24 [1; 2; 1; 2]%Z
   = Raise IndexError) /\
  (2 <= 3 ->
   exists P R : ndarray Z,
     component_selector Sample.U23 None (Some 2%Z) = Ok P /\
     projector P Sample.X24 = Ok R /\
     has_shape P 2 2 /\
     has_shape R 2 4 /\
     cell_47 Sample.sized_scatter Sample.U23 Sample.X24 [1; 2; 1; 2]%Z
     = (_ <- Sample.sized_scatter
               (map (fun j => dot (column Sample.U23 0) (column Sample.X24 j))
                    (seq 0 4))
               (map (fun j => dot (column Sample.U23 1) (column Sample.X24 j))
                    (seq 0 4))
               [1; 2; 1; 2]%Z ;;
        Ok (P, R))).
Proof.
  split; [exact has_shape_U23|].
  split; [exact has_shape_X24|].
  apply (cell_47_outcome Sample.sized_scatter Sample.U23 Sample.X24
           [1; 2; 1; 2]%Z 2 3 4).
  - exact has_shape_U23.
  - exact has_shape_X24.
Defined.

Lemma cell_49_outcome_witness :
  has_shape Sample2.U29 2 9 /\
  has_shape Sample.X24 2 4 /\
  (9 < 4 ->
   cell_49 Sample.sized_scatter Sample2.U29 Sample.X24 [1; 2; 1; 2]%Z
   = Raise IndexError) /\
  (4 <= 9 ->
   exists P R : ndarray Z,
     component_selector Sample2.U29 (Some 2%Z) (Some 4%Z) = Ok P /\
     projector P Sample.X24 = Ok R /\
     has_shape P 2 2 /\
     has_shape R 2 4 /\
     cell_49 Sample.sized_scatter Sample2.U29 Sample.X24 [1; 2; 1; 2]%Z
     = (_ <- Sample.sized_scatter
               (map (fun j => dot (column Sample2.U29 2) (column Sample.X24 j))
                    (seq 0 4))
               (map (fun j => dot (column Sample2.U29 3) (column Sample.X24 j))
                    (seq 0 4))
               [1; 2; 1; 2]%Z ;;
        Ok (P, R))).
Proof.
  split; [exact has_shape_U29|].
  split; [exact has_shape_X24|].
  apply (cell_49_outcome Sample.sized_scatter Sample2.U29 Sample.X24
           [1; 2; 1; 2]%Z 2 9 4).
  - exact has_shape_U29.
  - exact has_shape_X24.
Defined.

(** Cell 35 on a [U] with nine columns and one label per sample; the same
    with two labels for four samples, which the stand-in routine refuses;
    and cell 49 on a [U] with three columns, where the routine is not
    reached. *)
Example cell_35_sample :
  cell_35 Sample.sized_scatter Sample2.U29 Sample.X24 [1; 2; 1; 2]%Z
  = Ok (mk_ndarray 2 2 [[2; 1]; [1; 3]]%Z,
        mk_ndarray 2 4 [[2; 1; 5; 5]; [1; 3; 5; 10]]%Z).
Proof.
  reflexivity.
Qed.

Example cell_35_sample_misaligned :
  cell_35 Sample.sized_scatter Sample2.U29 Sample.X24 [1; 2]%Z
  = Raise ValueError.
Proof.
  reflexivity.
Qed.

Example cell_49_sample :
  cell_49 Sample.sized_scatter Sample.U23 Sample.X24 [1; 2; 1; 2]%Z
  = Raise IndexError.
Proof.
  reflexivity.
Qed.

(** ** Cells 26 and 27: the check of the first singular pair *)

Section GramFacts.

Context {T : Type} `{Dtype T}.

Lemma dot_comm (x y : list T) :
  (forall a b : T, mul a b = mul b a) -> dot x y = dot y x.
Proof.
  intros Hcomm. revert y. induction x as [|a x IH]; intros [|b y]; simpl;
    try reflexivity.
  now rewrite IH, Hcomm.
Qed.

Lemma gram_ok (X : ndarray T) :
  matmul X (transpose X)
  = Ok (mk_ndarray (nrows X) (nrows X) (mm X (transpose X))).
Proof.
  apply (matmul_ok X (transpose X)). reflexivity.
Qed.

Lemma gram_entry (X : ndarray T) (i j : nat) :
  wf X -> i < nrows X -> j < nrows X ->
  entry (mk_ndarray (nrows X) (nrows X) (mm X (transpose X))) i j
  = dot (row X i) (row X j).
Proof.
  intros Hwf Hi Hj.
  change (nrows X) with (ncols (transpose X)) at 2.
  rewrite entry_mm; [|destruct Hwf; lia|exact Hj].
  now rewrite column_transpose.
Qed.

(** X10. [X @ X.T] never raises: for [X] of shape d x m it is a d x d array
    whose entry (i, j) is the product of rows i and j of [X], and it is
    symmetric as soon as the multiplication of the entries commutes, as it
    does for floating-point numbers too. *)
Theorem gram_matrix (X : ndarray T) (d m : nat) :
  has_shape X d m ->
  exists G : ndarray T,
    matmul X (transpose X) = Ok G /\
    has_shape G d d /\
    (forall i j, i < d -> j < d -> entry G i j = dot (row X i) (row X j)) /\
    ((forall a b : T, mul a b = mul b a) -> symmetric G).
Proof.
  intros [Hwf [Hd Hm]].
  exists (mk_ndarray (nrows X) (nrows X) (mm X (transpose X))).
  split; [apply gram_ok|].
  split.
  { rewrite <- Hd. change (nrows X) with (ncols (transpose X)) at 2 4.
    apply has_shape_mm. exact (proj1 Hwf). }
  split.
  - intros i j Hi Hj. apply gram_entry; [exact Hwf|lia|lia].
  - intros Hcomm. split; [reflexivity|]. simpl. intros i j Hi Hj.
    rewrite !gram_entry by assumption. now apply dot_comm.
Qed.

(** X11. Cell 26, [X @ X.T @ U[:,0]], for [X] of shape d x m and [U] with
    d' rows and r columns: [IndexError] when [U] has no column, [ValueError]
    when d' differs from d, and otherwise a vector of length d whose item i
    is the product of row i of [X @ X.T] with the first column of [U]. *)
Theorem cell_26_outcome (X U : ndarray T) (d m d' r : nat) :
  has_shape X d m ->
  has_shape U d' r ->
  (r = 0 -> cell_26 X U = Raise IndexError) /\
  (0 < r -> d' <> d -> cell_26 X U = Raise ValueError) /\
  (0 < r -> d' = d ->
   exists v : list T,
     cell_26 X U = Ok v /\
     length v = d /\
     forall i, i < d ->
       nth i v zero
       = dot (map (fun j => dot (row X i) (row X j)) (seq 0 d))
             (column U 0)).
Proof.
  intros [HwfX [Hd Hm]] [[HUlen HUall] [Hd' Hr]].
  unfold cell_26. rewrite gram_ok. simpl.
  split; [|split].
  - intros H0. rewrite index_col_out_of_range by lia. reflexivity.
  - intros Hpos Hne. unfold index_col.
    rewrite SliceFacts.index_ok by lia. simpl.
    unfold matvec. simpl. rewrite length_column.
    destruct (Nat.eqb_spec (nrows X) (length (rowsOf U))); [lia|reflexivity].
  - intros Hpos Heq. unfold index_col.
    rewrite SliceFacts.index_ok by lia. simpl.
    unfold matvec. simpl. rewrite length_column.
    destruct (Nat.eqb_spec (nrows X) (length (rowsOf U))); [|lia].
    eexists. split; [reflexivity|].
    split.
    + unfold mv, mm. simpl. rewrite !length_map. destruct HwfX; lia.
    + intros i Hi. unfold mv. simpl.
      rewrite (nth_indep _ zero (dot [] (column U 0)))
        by (unfold mm; rewrite !length_map; destruct HwfX; lia).
      rewrite (map_nth (fun r0 => dot r0 (column U 0))).
      f_equal.
      change (nth i (mm X (transpose X)) [])
        with (row (mk_ndarray (nrows X) (ncols (transpose X))
                     (mm X (transpose X))) i).
      rewrite row_mm by (destruct HwfX; lia).
      simpl. rewrite Hd. apply map_ext_in. intros j Hj.
      apply in_seq in Hj.
      rewrite column_transpose; [reflexivity|exact HwfX|lia].
Qed.

(** X12. Cell 27, [s[0]*s[0]*U[:,0]]: [IndexError] when [s] is empty or
    [U] has no column; otherwise the first column of [U] with every item
    multiplied on the left by [s[0]*s[0]], of the same length d as the
    vector of cell 26 it is compared with. *)
Theorem cell_27_outcome (s : list T) (U : ndarray T) (d r : nat) :
  has_shape U d r ->
  (s = [] \/ r = 0 -> cell_27 s U = Raise IndexError) /\
  (forall s0 s', s = s0 :: s' -> 0 < r ->
     cell_27 s U = Ok (map (mul (mul s0 s0)) (column U 0)) /\
     length (map (mul (mul s0 s0)) (column U 0)) = d).
Proof.
  intros [[HUlen HUall] [Hd Hr]]. unfold cell_27, index_vec. split.
  - intros [Hs|H0].
    + subst s. reflexivity.
    + destruct s as [|s0 s']; [reflexivity|].
      rewrite SliceFacts.index_ok by (simpl length; lia). simpl.
      rewrite index_col_out_of_range by lia. reflexivity.
  - intros s0 s' -> Hpos.
    rewrite SliceFacts.index_ok by (simpl length; lia). simpl.
    unfold index_col. rewrite SliceFacts.index_ok by lia. simpl.
    split; [reflexivity|].
    rewrite length_map, length_column. lia.
Qed.

End GramFacts.

Lemma has_shape_X23 : has_shape Sample2.X23 2 3.
Proof.
  unfold has_shape, wf; simpl. repeat split; repeat constructor.
Qed.

Lemma has_shape_U22 : has_shape Sample2.U22 2 2.
Proof.
  unfold has_shape, wf; simpl. repeat split; repeat constructor.
Qed.

Lemma gram_matrix_witness :
  has_shape Sample2.X23 2 3 /\
  exists G : ndarray Z,
    matmul Sample2.X23 (transpose Sample2.X23) = Ok G /\
    has_shape G 2 2 /\
    (forall i j, i < 2 -> j < 2 ->
                 entry G i j = dot (row Sample2.X23 i) (row Sample2.X23 j)) /\
    ((forall a b : Z, mul a b = mul b a) -> symmetric G).
Proof.
  split; [exact has_shape_X23|].
  apply (gram_matrix Sample2.X23 2 3). exact has_shape_X23.
Defined.

Lemma cell_26_outcome_witness :
  has_shape Sample2.X23 2 3 /\
  has_shape Sample2.U22 2 2 /\
  (2 = 0 -> cell_26 Sample2.X23 Sample2.U22 = Raise IndexError) /\
  (0 < 2 -> 2 <> 2 -> cell_26 Sample2.X23 Sample2.U22 = Raise ValueError) /\
  (0 < 2 -> 2 = 2 ->
   exists v : list Z,
     cell_26 Sample2.X23 Sample2.U22 = Ok v /\
     length v = 2 /\
     forall i, i < 2 ->
       nth i v zero
       = dot (map (fun j => dot (row Sample2.X23 i) (row Sample2.X23 j))
                  (seq 0 2))
             (column Sample2.U22 0)).
Proof.
  split; [exact has_shape_X23|].
  split; [exact has_shape_U22|].
  apply (cell_26_outcome Sample2.X23 Sample2.U22 2 3 2 2).
  - exact has_shape_X23.
  - exact has_shape_U22.
Defined.

Lemma cell_27_outcome_witness :
  has_shape Sample2.U22 2 2 /\
  ([3; 1]%Z = [] \/ 2 = 0 ->
   cell_27 [3; 1]%Z Sample2.U22 = Raise IndexError) /\
  (forall s0 s', [3; 1]%Z = s0 :: s' -> 0 < 2 ->
     cell_27 [3; 1]%Z Sample2.U22
     = Ok (map (mul (mul s0 s0)) (column Sample2.U22 0)) /\
     length (map (mul (mul s0 s0)) (column Sample2.U22 0)) = 2).
Proof.
  split; [exact has_shape_U22|].
  apply (cell_27_outcome [3; 1]%Z Sample2.U22 2 2).
  exact has_shape_U22.
Defined.

(** Cells 26 and 27 on the sample. *)
Example cell_26_sample :
  cell_26 Sample2.X23 Sample2.U22 = Ok [9; 6]%Z.
Proof.
  reflexivity.
Qed.

Example cell_27_sample :
  cell_27 [3; 1]%Z Sample2.U22 = Ok [9; 18]%Z /\
  cell_27 [] Sample2.U22 = Raise IndexError.
Proof.
  split; reflexivity.
Qed.

(** ** Regrouping a product, in exact arithmetic *)

Section AssocFacts.

Context {T : Type} {D : Dtype T} {E : ExactArith T}.

Lemma mul_zero_l (a : T) : mul zero a = zero.
Proof.
  rewrite mul_comm. apply mul_zero_r.
Qed.

Lemma dot_zeros {A : Type} (l : list A) (x : list T) :
  dot (map (fun _ => zero) l) x = zero.
Proof.
  revert x. induction l as [|i l IH]; intros [|b x]; simpl; try reflexivity.
  now rewrite IH, mul_zero_l, add_zero_r.
Qed.

Lemma dot_vadd_l (x y z : list T) :
  length x = length y -> dot (vadd x y) z = add (dot x z) (dot y z).
Proof.
  intros Hlen.
  rewrite (dot_comm (vadd x y) z mul_comm), (dot_comm x z mul_comm),
    (dot_comm y z mul_comm).
  now apply dot_vadd.
Qed.

Lemma dot_vscale_l (c : T) (x z : list T) :
  dot (vscale c x) z = mul c (dot x z).
Proof.
  rewrite (dot_comm (vscale c x) z mul_comm), (dot_comm x z mul_comm).
  apply dot_vscale.
Qed.

Lemma vadd_map {A : Type} (f g : A -> T) (l : list A) :
  vadd (map f l) (map g l) = map (fun i => add (f i) (g i)) l.
Proof.
  unfold vadd. rewrite combine_map_same, map_map. reflexivity.
Qed.

(** One row of [(A @ B) @ x] against the same row of [A @ (B @ x)]. *)
Lemma dot_mm_row (rowsB : list (list T)) (m : nat) (r x : list T) :
  Forall (fun b => length b = m) rowsB ->
  dot (map (fun j => dot r (map (fun b => nth j b zero) rowsB)) (seq 0 m)) x
  = dot r (map (fun b => dot b x) rowsB).
Proof.
  intros Hall. revert r.
  induction Hall as [|b rowsB Hb Hall IH]; intros r.
  - simpl. rewrite dot_nil_r. apply dot_zeros.
  - destruct r as [|a r].
    + simpl. apply dot_zeros.
    + simpl.
      rewrite <- (vadd_map (fun j => mul a (nth j b zero))
                    (fun j => dot r (map (fun b0 => nth j b0 zero) rowsB))).
      rewrite dot_vadd_l by (now rewrite !length_map).
      rewrite IH. f_equal.
      rewrite <- (map_map (fun j => nth j b zero) (mul a)).
      rewrite <- Hb, map_nth_seq.
      apply dot_vscale_l.
Qed.

(** X13. In exact arithmetic the product of cell 26 can be regrouped:
    for [A] of shape n x k, [B] of shape k x m and [x] of length m,
    [(A @ B) @ x], which is how Python reads [A @ B @ x], succeeds and equals
    [A @ (B @ x)]. *)
Theorem matmul_matvec_assoc (A B : ndarray T) (x : list T) (n k m : nat) :
  has_shape A n k ->
  has_shape B k m ->
  length x = m ->
  exists v : list T,
    (AB <- matmul A B ;; matvec AB x) = Ok v /\
    (Bx <- matvec B x ;; matvec A Bx) = Ok v /\
    length v = n.
Proof.
  intros [[HAlen HAall] [Hn Hk]] [[HBlen HBall] [Hk' Hm]] Hx.
  exists (mv A (mv B x)).
  rewrite matmul_ok by lia. simpl.
  unfold matvec. simpl.
  replace (ncols B =? length x) with true
    by (symmetry; apply Nat.eqb_eq; lia).
  simpl.
  replace (ncols A =? length (mv B x)) with true
    by (symmetry; apply Nat.eqb_eq; unfold mv; rewrite length_map; lia).
  split; [|split; [reflexivity|unfold mv; rewrite length_map; lia]].
  f_equal. unfold mv at 1 2, mm. simpl.
  rewrite map_map. apply map_ext. intros r.
  unfold column. apply dot_mm_row. exact HBall.
Qed.

End AssocFacts.

Lemma matmul_matvec_assoc_witness :
  has_shape Sample2.X23 2 3 /\
  has_shape (transpose Sample2.X23) 3 2 /\
  length [1; 2]%Z = 2 /\
  exists v : list Z,
    (AB <- matmul Sample2.X23 (transpose Sample2.X23) ;;
     matvec AB [1; 2]%Z) = Ok v /\
    (Bx <- matvec (transpose Sample2.X23) [1; 2]%Z ;;
     matvec Sample2.X23 Bx) = Ok v /\
    length v = 2.
Proof.
  split; [exact has_shape_X23|].
  split; [apply has_shape_transpose; exact has_shape_X23|].
  split; [reflexivity|].
  apply (matmul_matvec_assoc Sample2.X23 (transpose Sample2.X23)
           [1; 2]%Z 2 3 2).
  - exact has_shape_X23.
  - apply has_shape_transpose; exact has_shape_X23.
  - reflexivity.
Defined.

(** ** Label encoding *)

Module LabelFacts.

Import String.StringSyntax.
Import Labels.

Lemma dict_get_filter_other (d : dict) (k k' : String.string) :
  k' <> k ->
  dict_get (filter (fun kv => negb (String.eqb (fst kv) k)) d) k'
  = dict_get d k'.
Proof.
  intros Hne. induction d as [|[k0 v0] d IH]; simpl; [reflexivity|].
  destruct (String.eqb_spec k0 k) as [->|Hk0]; simpl.
  - destruct (String.eqb_spec k k'); [congruence|exact IH].
  - now rewrite IH.
Qed.

(** Setting a key and reading it back; the other keys are untouched. *)
Lemma dict_get_set (d : dict) (k k' : String.string) (v : Z) :
  dict_get (dict_set d k v) k'
  = if String.eqb k k' then Some v else dict_get d k'.
Proof.
  unfold dict_set. simpl.
  destruct (String.eqb_spec k k') as [->|Hne]; [reflexivity|].
  apply dict_get_filter_other. congruence.
Qed.

Lemma label_to_int_get (name : String.string) :
  dict_get label_to_int name
  = if String.eqb "Iris-setosa" name then Some 1%Z
    else if String.eqb "Iris-versicolor" name then Some 2%Z
    else if String.eqb "Iris-virginica" name then Some 3%Z
    else None.
Proof.
  unfold label_to_int. rewrite !dict_get_set.
  change (dict_get [] name) with (@None Z).
  destruct (String.eqb_spec "Iris-setosa" name) as [E1|E1];
    destruct (String.eqb_spec "Iris-versicolor" name) as [E2|E2];
    destruct (String.eqb_spec "Iris-virginica" name) as [E3|E3];
    try reflexivity; congruence.
Qed.

Lemma label_to_int_injective (n1 n2 : String.string) (c : Z) :
  dict_get label_to_int n1 = Some c ->
  dict_get label_to_int n2 = Some c ->
  n1 = n2.
Proof.
  rewrite !label_to_int_get.
  destruct (String.eqb_spec "Iris-setosa" n1) as [A1|A1];
    destruct (String.eqb_spec "Iris-setosa" n2) as [A2|A2];
    destruct (String.eqb_spec "Iris-versicolor" n1) as [B1|B1];
    destruct (String.eqb_spec "Iris-versicolor" n2) as [B2|B2];
    destruct (String.eqb_spec "Iris-virginica" n1) as [C1|C1];
    destruct (String.eqb_spec "Iris-virginica" n2) as [C2|C2];
    intros E1 E2; congruence.
Qed.

(** X14. Cell 43 encodes the species column position by position and
    raises nothing: the three names of the dict become 1, 2 and 3, any other
    string (a misspelt name, say) becomes NaN, and two entries that get the
    same code carry the same name, so no two classes are merged. *)
Theorem cell_43_encoding (species : list String.string) :
  length (cell_43 species) = length species /\
  (forall i name,
      nth_error species i = Some name ->
      nth_error (cell_43 species) i
      = Some (if String.eqb name "Iris-setosa" then Some 1%Z
              else if String.eqb name "Iris-versicolor" then Some 2%Z
              else if String.eqb name "Iris-virginica" then Some 3%Z
              else None)) /\
  (forall i j c,
      nth_error (cell_43 species) i = Some (Some c) ->
      nth_error (cell_43 species) j = Some (Some c) ->
      nth_error species i = nth_error species j).
Proof.
  unfold cell_43, series_map.
  split; [apply length_map|]. split.
  - intros i name Hi. rewrite nth_error_map, Hi. cbn [option_map]. f_equal.
    rewrite label_to_int_get.
    rewrite (String.eqb_sym name "Iris-setosa"),
      (String.eqb_sym name "Iris-versicolor"),
      (String.eqb_sym name "Iris-virginica").
    reflexivity.
  - intros i j c. rewrite !nth_error_map.
    destruct (nth_error species i) as [n1|]; cbn [option_map];
      [|discriminate].
    destruct (nth_error species j) as [n2|]; cbn [option_map];
      [|discriminate].
    intros E1 E2. injection E1 as E1. injection E2 as E2.
    f_equal. exact (label_to_int_injective n1 n2 c E1 E2).
Qed.

(** A column with a name the dict does not know. *)
Example cell_43_sample :
  cell_43 ["Iris-virginica"; "Iris-setosa"; "iris-setosa";
           "Iris-versicolor"]%string
  = [Some 3%Z; Some 1%Z; None; Some 2%Z].
Proof.
  reflexivity.
Qed.

End LabelFacts.

(** ** The runs of the notebook *)

Section RunFacts.

Context {T : Type} `{Dtype T}.

Variable LA_svd :
  ndarray T -> bool -> outcome (ndarray T * list T * ndarray T).

(** Cells 19 and 20 on [X = Xh.T]: the first column of [X] is the first
    sample, the first row of [X] is the first feature. *)
Lemma cells_19_20_on_transpose (Xh : ndarray T) :
  wf Xh ->
  cell_19 (transpose Xh) = index_row Xh 0%Z /\
  cell_20 (transpose Xh) = index_col Xh 0%Z.
Proof.
  intros Hwf. unfold cell_19, cell_20, index_col, index_row. simpl. split.
  - destruct (Slice.index (Z.of_nat (nrows Xh)) 0) as [k|e] eqn:Hidx;
      simpl; [|reflexivity].
    apply index_inv in Hidx. f_equal.
    apply column_transpose; [exact Hwf|tauto].
  - destruct (Slice.index (Z.of_nat (ncols Xh)) 0) as [k|e] eqn:Hidx;
      simpl; [|reflexivity].
    apply index_inv in Hidx. f_equal. apply row_transpose. tauto.
Qed.

(** Cells 16 and 21 on [X] of shape d x m: the shape shown is (d, m), and
    the first two columns are two columns only when [X] has that many. *)
Lemma cells_16_21_shapes (X : ndarray T) (d m : nat) :
  has_shape X d m ->
  cell_16 X = (d, m) /\ has_shape (cell_21 X) d (Nat.min 2 m).
Proof.
  intros HX. split.
  - destruct HX as (_ & Hd & Hm). unfold cell_16, shape. congruence.
  - replace (Nat.min 2 m) with (Slice.len (Z.of_nat m) None (Some 2%Z)).
    + now apply has_shape_slice_cols.
    + unfold Slice.len, Slice.start, Slice.stop.
      cbn [Slice.from_option].
      rewrite (SliceFacts.adjust_in_range (Z.of_nat m) 0) by lia.
      destruct (Z.le_gt_cases (Z.of_nat m) 2) as [Hle|Hgt].
      * rewrite SliceFacts.adjust_above by lia.
        destruct (Z.ltb_spec 0 (Z.of_nat m)); lia.
      * rewrite SliceFacts.adjust_in_range by lia.
        destruct (Z.ltb_spec 0 2); lia.
Qed.

Lemma pca_ok_shape
    (dataset : ndarray T) (n w : nat) (c0 c1 cy : Z) (a b : option Z)
    (R : ndarray T) (y : list T) :
  has_shape dataset n w ->
  pca LA_svd dataset c0 c1 cy a b = Ok (R, y) ->
  exists (U : ndarray T) (s : list T) (Vh : ndarray T),
    LA_svd (transpose (slice_cols dataset (Some c0) (Some c1))) false
    = Ok (U, s, Vh) /\
    has_shape R (Slice.len (Z.of_nat (ncols U)) a b) n /\
    length y = n.
Proof.
  intros Hds Hrun.
  destruct (pca_inv _ _ _ _ _ _ _ _ _ Hrun) as (U & s & Vh & Hy & Hsvd & HR).
  exists U, s, Vh. split; [exact Hsvd|].
  pose proof (has_shape_transpose _ _ _
                (has_shape_slice_cols dataset n w (Some c0) (Some c1) Hds))
    as HX.
  destruct Hds as [[Hlen _] [Hn Hw]]. split.
  - destruct (projector_result (slice_cols U a b)
                (transpose (slice_cols dataset (Some c0) (Some c1))) n
                (proj2 (proj2 HX))) as [Hne Heq].
    destruct (Nat.eq_dec (nrows (slice_cols U a b))
                (nrows (transpose (slice_cols dataset (Some c0) (Some c1)))))
      as [E|E].
    + destruct (Heq E) as (R' & HR' & Hsh).
      rewrite HR in HR'. injection HR' as <-. exact Hsh.
    + rewrite (Hne E) in HR. discriminate.
  - unfold index_col in Hy.
    destruct (Slice.index (Z.of_nat (ncols dataset)) cy); simpl in Hy;
      [|discriminate].
    injection Hy as <-. rewrite length_column. lia.
Qed.

Lemma plotted_run_plots
    (plt_scatter : list T -> list T -> list T -> outcome unit)
    (dataset : ndarray T) (c0 c1 cy : Z) (a b : option Z)
    (R : ndarray T) (y : list T) :
  ('(Xh, y, X) <- ingest dataset c0 c1 cy ;;
   '(U, s, Vh) <- svd_engine LA_svd X ;;
   '(P, R) <- (P <- component_selector U a b ;;
               R <- projector P X ;;
               _ <- scatter plt_scatter R y ;;
               Ok (P, R)) ;;
   Ok (R, y)) = Ok (R, y) ->
  2 <= nrows R.
Proof.
  destruct (ingest dataset c0 c1 cy) as [[[Xh y'] X]|e]; simpl;
    [|discriminate].
  destruct (svd_engine LA_svd X) as [[[U s] Vh]|e]; simpl; [|discriminate].
  destruct (projector _ X) as [R'|e]; simpl; [|discriminate].
  destruct (scatter plt_scatter R' y') as [pts|e] eqn:Hplot; simpl;
    [|discriminate].
  intros Hok. injection Hok as <- <-.
  destruct (Nat.lt_ge_cases (nrows R') 2) as [Hlt|Hge]; [|exact Hge].
  rewrite scatter_short in Hplot by exact Hlt. discriminate.
Qed.

Lemma len_at_most (n : nat) (a : option Z) (b : Z) :
  (0 <= Slice.from_option a 0)%Z ->
  (0 <= b)%Z ->
  Slice.len (Z.of_nat n) a (Some b)
  <= Z.to_nat (b - Slice.from_option a 0%Z).
Proof.
  intros Ha Hb. unfold Slice.len, Slice.start, Slice.stop, Slice.adjust. simpl.
  repeat match goal with
         | |- context [(?x <? ?y)%Z] => destruct (Z.ltb_spec x y)
         | |- context [(?x <=? ?y)%Z] => destruct (Z.leb_spec x y)
         end; lia.
Qed.

(** X15. Whenever one of the three plotted runs of the notebook completes
    on a table of n rows (wine with columns 7:9, iris with columns :2 or
    2:4), the projected coordinates form a 2 x n array and there are n
    labels: each plotted point has its label. *)
Theorem plotted_runs_aligned
    (plt_scatter : list T -> list T -> list T -> outcome unit)
    (dataset : ndarray T) (n w : nat) (R : ndarray T) (y : list T) :
  has_shape dataset n w ->
  wine_low LA_svd plt_scatter dataset = Ok (R, y) \/
  iris_top2 LA_svd plt_scatter dataset = Ok (R, y) \/
  iris_low LA_svd plt_scatter dataset = Ok (R, y) ->
  has_shape R 2 n /\ length y = n.
Proof.
  intros Hds Hrun.
  assert (Hcase : exists c0 c1 cy a b,
             (0 <= Slice.from_option a 0)%Z /\
             (b - Slice.from_option a 0 = 2)%Z /\
             2 <= nrows R /\
             pca LA_svd dataset c0 c1 cy a (Some b) = Ok (R, y)).
  { destruct Hrun as [Hrun|[Hrun|Hrun]].
    - exists 0%Z, 13%Z, 13%Z, (Some 7%Z), 9%Z.
      repeat split; try (simpl; lia).
      + exact (plotted_run_plots _ _ _ _ _ _ _ _ _ Hrun).
      + now apply (wine_low_is_pca LA_svd plt_scatter).
    - exists 1%Z, 5%Z, 5%Z, None, 2%Z.
      repeat split; try (simpl; lia).
      + exact (plotted_run_plots _ _ _ _ _ _ _ _ _ Hrun).
      + now apply (iris_top2_is_pca LA_svd plt_scatter).
    - exists 1%Z, 5%Z, 5%Z, (Some 2%Z), 4%Z.
      repeat split; try (simpl; lia).
      + exact (plotted_run_plots _ _ _ _ _ _ _ _ _ Hrun).
      + now apply (iris_low_is_pca LA_svd plt_scatter). }
  destruct Hcase as (c0 & c1 & cy & a & b & Ha & Hab & Hrows & Hpca).
  destruct (pca_ok_shape _ _ _ _ _ _ _ _ _ _ Hds Hpca)
    as (U & s & Vh & _ & HshR & Hy).
  split; [|exact Hy].
  pose proof (len_at_most (ncols U) a b Ha) as Hle.
  assert (Hb : (0 <= b)%Z) by lia. specialize (Hle Hb).
  destruct HshR as (Hwf & Hk & Hn).
  repeat split; try exact (proj1 Hwf); try exact (proj2 Hwf); lia.
Qed.

End RunFacts.

Lemma plotted_runs_aligned_witness :
  has_shape Sample3.iris 3 6 /\
  (wine_low Sample.echo_svd Sample.sized_scatter Sample3.iris
   = Ok (mk_ndarray 2 3 [[5; 11; 17]; [11; 25; 39]]%Z, [1; 2; 3]%Z) \/
   iris_top2 Sample.echo_svd Sample.sized_scatter Sample3.iris
   = Ok (mk_ndarray 2 3 [[5; 11; 17]; [11; 25; 39]]%Z, [1; 2; 3]%Z) \/
   iris_low Sample.echo_svd Sample.sized_scatter Sample3.iris
   = Ok (mk_ndarray 2 3 [[5; 11; 17]; [11; 25; 39]]%Z, [1; 2; 3]%Z)) /\
  has_shape (mk_ndarray 2 3 [[5; 11; 17]; [11; 25; 39]]%Z) 2 3 /\
  length [1; 2; 3]%Z = 3.
Proof.
  assert (Hsh : has_shape Sample3.iris 3 6)
    by (unfold has_shape, wf; simpl; repeat split; repeat constructor).
  assert (Hrun : iris_top2 Sample.echo_svd Sample.sized_scatter Sample3.iris
                 = Ok (mk_ndarray 2 3 [[5; 11; 17]; [11; 25; 39]]%Z,
                       [1; 2; 3]%Z))
    by reflexivity.
  split; [exact Hsh|].
  split; [right; left; exact Hrun|].
  apply (plotted_runs_aligned Sample.echo_svd Sample.sized_scatter
           Sample3.iris 3 6
           (mk_ndarray 2 3 [[5; 11; 17]; [11; 25; 39]]%Z) [1; 2; 3]%Z).
  - exact Hsh.
  - right; left; exact Hrun.
Defined.
